(** * Composite galaxy-halo models: the composition engine of
    [halotools/empirical_models/model_factories.py]

    The two factories of the module, [SubhaloModelFactory] (flat blueprints,
    one component model per galaxy property) and [HodModelFactory] (typed
    blueprints, a dictionary of features per galaxy type), are embedded as
    executable functions.  Python objects that are shared and mutated (the
    composite [param_dict] and its snapshot, the function objects bound as
    behaviours) live in explicit stores and are handled through references;
    exceptions are results of a small error monad. *)

From Stdlib Require Import Floats.
From stdpp Require Import gmap strings list fin_maps sorting.

Set Warnings "-inexact-float".
Open Scope string_scope.
Open Scope list_scope.

(** ** Python values shared by both factories *)

Module Py.

(** The exceptions the module can raise.  [KeyError] carries the message
    passed to it (for a failed dictionary lookup: the missing key);
    [AttributeError] carries the name of the attribute that was not
    found; [TypeError] says what an object was used as; [IndexError]
    carries the index out of range; [ValueError] is numpy's complaint
    about shapes. *)
Inductive exn :=
| KeyError (msg : string)
| AttributeError (attr : string)
| TypeError (msg : string)
| IndexError (index : nat)
| ValueError (msg : string).

Inductive result (A : Type) :=
| Ok (a : A)
| Raise (e : exn).
Arguments Ok {A} a.
Arguments Raise {A} e.

Definition bind {A B} (r : result A) (k : A → result B) : result B :=
  match r with
  | Ok a => k a
  | Raise e => Raise e
  end.

(** [o.attr] for an attribute that may be missing. *)
Definition getattr {A} (attr : string) (o : option A) : result A :=
  match o with
  | Some a => Ok a
  | None => Raise (AttributeError attr)
  end.

(** [hasattr(o, attr)] *)
Definition hasattr {A} (o : option A) : bool :=
  match o with Some _ => true | None => false end.

(** [d.items()] and [dict(pairs)]: in a list of pairs given to [dict] a
    later pair overrides an earlier one with the same key. *)
Definition items {V} (d : gmap string V) : list (string * V) :=
  map_to_list d.

Definition dict {V} (pairs : list (string * V)) : gmap string V :=
  list_to_map (reverse pairs).

(** [d[k]] *)
Definition getitem {V} (d : gmap string V) (k : string) : result V :=
  match d !! k with
  | Some v => Ok v
  | None => Raise (KeyError k)
  end.

(** [list(s)[0]] for a non-empty set [s]; the order in which Python lists
    a set is that of its hash table, here that of [elements]. *)
Definition first_element (s : gset string) : option string :=
  head (elements s).

(** Lookup in a dictionary whose iteration order matters (the blueprint):
    a list of pairs with the keys in iteration order. *)
Fixpoint assoc {A} (l : list (string * A)) (k : string) : option A :=
  match l with
  | [] => None
  | (k', a) :: l' => if decide (k' = k) then Some a else assoc l' k
  end.

(** [l[k]] for such a dictionary *)
Definition getitem_assoc {A} (l : list (string * A)) (k : string) : result A :=
  match assoc l k with
  | Some a => Ok a
  | None => Raise (KeyError k)
  end.

Definition keys {A} (l : list (string * A)) : list string := l.*1.
Definition values {A} (l : list (string * A)) : list A := l.*2.

(** [set(l)] for a list of strings. *)
Definition set_of (l : list string) : gset string := list_to_set l.

(** A function applied to every element of a list, left to right, the
    first exception ending the traversal. *)
Fixpoint traverse {A B} (f : A → result B) (l : list A) : result (list B) :=
  match l with
  | [] => Ok []
  | a :: l' =>
      match f a with
      | Ok b =>
          match traverse f l' with
          | Ok bs => Ok (b :: bs)
          | Raise e => Raise e
          end
      | Raise e => Raise e
      end
  end.

(** Code that runs on the state [S] of an object: it leaves a state
    behind also when it raises. *)
Definition stateful (S A : Type) : Type := S → S * result A.
Definition method (S : Type) : Type := stateful S unit.

Definition sbind {S A B} (m : stateful S A) (k : A → stateful S B)
    : stateful S B :=
  λ self,
    match m self with
    | (self', Ok a) => k a self'
    | (self', Raise e) => (self', Raise e)
    end.

Definition and_then {S} (m1 m2 : method S) : method S :=
  sbind m1 (λ _, m2).

(** Reading the state, and changing it. *)
Definition reading {S A} (f : S → result A) : stateful S A :=
  λ self, (self, f self).
Definition changing {S} (f : S → S) : method S :=
  λ self, (f self, Ok ()).

(** References to dictionary objects and to function objects. *)
Definition loc := nat.

End Py.

Notation "'let!' x ':=' r 'in' k" := (Py.bind r (λ x, k))
  (at level 10, x name, r at level 100, k at level 200, only parsing).
Notation "'let*' x ':=' m 'in' k" := (Py.sbind m (λ x, k))
  (at level 10, x name, m at level 100, k at level 200, only parsing).
Infix ">>" := Py.and_then (at level 61, left associativity, only parsing).

Import Py.

(** ** Component models

    A component model is an opaque object of which the factories only read
    attributes, most of them behind [hasattr]; an attribute that may be
    missing is an [option].  Parameter values are of an arbitrary type [V],
    numbers are [float]s.  A function is represented by its identity; the
    callable attributes of an object are those of [methods]. *)

Definition func := nat.

(** The columns of a halo or galaxy table. *)
Abbreviation table := (gmap string (list float)).

Module Component.

Record halo_profile := {
  halo_methods : gmap string func;
}.

Record component_model {V : Type} := {
  galprop_key : option string;
  param_dict : option (gmap string V);
  prim_haloprop_key : option string;
  sec_haloprop_key : option string;
  publications : option (list string);
  new_haloprop_func_dict : option (gmap string func);
  prof_param_keys : option (list string);
  occupation_bound : option Z;
  halo_boundary : option string;
  halo_prof_model : option halo_profile;
  mc_pos : option (table → list float * list float * list float);
  methods : gmap string func;
}.
Arguments component_model : clear implicits.

(** An object without any of the attributes. *)
Definition bare_object {V} : component_model V :=
  {| galprop_key := None; param_dict := None; prim_haloprop_key := None;
     sec_haloprop_key := None; publications := None;
     new_haloprop_func_dict := None; prof_param_keys := None;
     occupation_bound := None; halo_boundary := None;
     halo_prof_model := None; mc_pos := None; methods := ∅ |}.

End Component.

Abbreviation component_model := Component.component_model.

(** Messages of the [KeyError]s raised by the factories. *)
Definition repeated_param_msg (repeated_key : string) : string :=
  "The param_dict key " +:+ repeated_key +:+
  " appears in more than one component model".

Definition repeated_func_msg (example_repeated_element : string) : string :=
  "The composite model received multiple component models with a " +:+
  "new_haloprop_func_dict that use the " +:+ example_repeated_element +:+
  " key".

Definition galprop_sequence_msg : string :=
  "The input galprop_sequence keyword argument must " +:+
  "have the same list of galprops as the input model blueprint".

(** The value bound to the local variable [new_haloprop_func_dict] of
    [_build_composite_lists]: a dictionary at first, the list of pairs that
    [items() + items()] returns afterwards. *)
Inductive func_dict :=
| AsDict (d : gmap string func)
| AsItems (l : list (string * func)).

(** [set(x)] of such a value: the keys of a dictionary, the pairs of a list. *)
Definition func_dict_set (x : func_dict) : gset (string + string * func) :=
  match x with
  | AsDict d => list_to_set (inl <$> (items d).*1)
  | AsItems l => list_to_set (inr <$> l)
  end.

(** [x.items()]: a list has no such method. *)
Definition func_dict_items (x : func_dict) : result (list (string * func)) :=
  match x with
  | AsDict d => Ok (items d)
  | AsItems _ => Raise (AttributeError "items")
  end.

(** ["%s" % e] for an element of such a set. *)
Definition format_element (e : string + string * func) : string :=
  match e with
  | inl key => key
  | inr (key, _) => "('" +:+ key +:+ "', <function>)"
  end.

(** The lists that [_build_composite_lists] accumulates in local variables. *)
Record composite_lists := {
  haloprop_list : list string;
  prof_param_keys_list : list string;
  pub_list : list string;
  func_dict_acc : func_dict;
}.

Definition no_lists : composite_lists :=
  {| haloprop_list := []; prof_param_keys_list := []; pub_list := [];
     func_dict_acc := AsDict ∅ |}.

(** The part of the loop body of [_build_composite_lists] that both
    factories share: the halo property keys, the references and the
    dictionaries of halo property functions of one component model. *)
Definition add_haloprop_keys {V} (component_model : component_model V)
    (haloprop_list : list string) : list string :=
  let haloprop_list :=
    match Component.prim_haloprop_key component_model with
    | Some key => haloprop_list ++ [key]
    | None => haloprop_list
    end in
  match Component.sec_haloprop_key component_model with
  | Some key => haloprop_list ++ [key]
  | None => haloprop_list
  end.

Definition add_publications {V} (component_model : component_model V)
    (pub_list : list string) : list string :=
  match Component.publications component_model with
  | Some pubs => pub_list ++ pubs
  | None => pub_list
  end.

Definition add_func_dict {V} (component_model : component_model V)
    (new_haloprop_func_dict : func_dict) : result func_dict :=
  match Component.new_haloprop_func_dict component_model with
  | Some component_dict =>
      let dict_intersection :=
        func_dict_set new_haloprop_func_dict ∩
        func_dict_set (AsDict component_dict) in
      match elements dict_intersection with
      | [] =>
          let! own := func_dict_items new_haloprop_func_dict in
          Ok (AsItems (own ++ items component_dict))
      | example_repeated_element :: _ =>
          Raise (KeyError
                   (repeated_func_msg (format_element example_repeated_element)))
      end
  | None => Ok new_haloprop_func_dict
  end.

(** The classes [mock_factories.SubhaloMockFactory] and
    [mock_factories.HodMockFactory], known here by their identity only. *)
Definition SubhaloMockFactory : func := 0%nat.
Definition HodMockFactory : func := 1%nat.

(** What the caller of a model does to the dictionary [model.param_dict]
    between two calls: [model.param_dict[k] = v] and
    [del model.param_dict[k]]. *)
Inductive mutation {V : Type} :=
| SetItem (k : string) (v : V)
| DelItem (k : string).
Arguments mutation : clear implicits.

Definition mutate {V} (op : mutation V) (d : gmap string V) : gmap string V :=
  match op with
  | SetItem k v => <[k := v]> d
  | DelItem k => delete k d
  end.

(** The same on the dictionary object at [l]. *)
Definition mutate_at {V} (l : loc) (op : mutation V)
    (heap : gmap loc (gmap string V)) : gmap loc (gmap string V) :=
  match heap !! l with
  | Some d => <[l := mutate op d]> heap
  | None => heap
  end.

(** ** [class SubhaloModelFactory]: flat blueprints *)

Module SubhaloModelFactory.
Section SubhaloModelFactory.

Context {V : Type}.

(** The values of a blueprint: a component model under a [galprop_key],
    a callable under ['mock_factory']. *)
Inductive blueprint_value :=
| Model (m : component_model V)
| Callable (f : func).

Definition blueprint := list (string * blueprint_value).

Definition as_object (v : blueprint_value) : component_model V :=
  match v with
  | Model m => m
  | Callable _ => Component.bare_object
  end.

(** [**kwargs] of the constructor. *)
Record keyword_args := {
  kw_galprop_sequence : option (list string);
  kw_galaxy_selection_func : option func;
}.

(** The instance: its attributes, and the dictionary objects it refers
    to.  [bound] holds the attributes created by [setattr]: under the name
    ['mc_'+galprop_key] the partial application of [_galprop_func] to
    [galprop_key]. *)
Record instance := {
  heap : gmap loc (gmap string V);
  _input_model_blueprint : blueprint;
  galaxy_selection_func : option func;
  model_blueprint : blueprint;
  galprop_list : list string;
  _haloprop_list : list string;
  publications : list string;
  new_haloprop_func_dict : func_dict;
  param_dict : option loc;
  _init_param_dict : option loc;
  bound : gmap string string;
}.

Definition set_heap (h : gmap loc (gmap string V)) (self : instance) :=
  {| heap := h;
     _input_model_blueprint := _input_model_blueprint self;
     galaxy_selection_func := galaxy_selection_func self;
     model_blueprint := model_blueprint self;
     galprop_list := galprop_list self;
     _haloprop_list := _haloprop_list self;
     publications := publications self;
     new_haloprop_func_dict := new_haloprop_func_dict self;
     param_dict := param_dict self;
     _init_param_dict := _init_param_dict self;
     bound := bound self |}.

Definition set_model_blueprint (bp : blueprint) (self : instance) :=
  {| heap := heap self;
     _input_model_blueprint := _input_model_blueprint self;
     galaxy_selection_func := galaxy_selection_func self;
     model_blueprint := bp;
     galprop_list := galprop_list self;
     _haloprop_list := _haloprop_list self;
     publications := publications self;
     new_haloprop_func_dict := new_haloprop_func_dict self;
     param_dict := param_dict self;
     _init_param_dict := _init_param_dict self;
     bound := bound self |}.

Definition set_galprop_list (gl : list string) (self : instance) :=
  {| heap := heap self;
     _input_model_blueprint := _input_model_blueprint self;
     galaxy_selection_func := galaxy_selection_func self;
     model_blueprint := model_blueprint self;
     galprop_list := gl;
     _haloprop_list := _haloprop_list self;
     publications := publications self;
     new_haloprop_func_dict := new_haloprop_func_dict self;
     param_dict := param_dict self;
     _init_param_dict := _init_param_dict self;
     bound := bound self |}.

Definition set_composite_lists (hl pl : list string) (fd : func_dict)
    (self : instance) :=
  {| heap := heap self;
     _input_model_blueprint := _input_model_blueprint self;
     galaxy_selection_func := galaxy_selection_func self;
     model_blueprint := model_blueprint self;
     galprop_list := galprop_list self;
     _haloprop_list := hl;
     publications := pl;
     new_haloprop_func_dict := fd;
     param_dict := param_dict self;
     _init_param_dict := _init_param_dict self;
     bound := bound self |}.

Definition set_param_dict (l : option loc) (self : instance) :=
  {| heap := heap self;
     _input_model_blueprint := _input_model_blueprint self;
     galaxy_selection_func := galaxy_selection_func self;
     model_blueprint := model_blueprint self;
     galprop_list := galprop_list self;
     _haloprop_list := _haloprop_list self;
     publications := publications self;
     new_haloprop_func_dict := new_haloprop_func_dict self;
     param_dict := l;
     _init_param_dict := _init_param_dict self;
     bound := bound self |}.

Definition set_init_param_dict (l : option loc) (self : instance) :=
  {| heap := heap self;
     _input_model_blueprint := _input_model_blueprint self;
     galaxy_selection_func := galaxy_selection_func self;
     model_blueprint := model_blueprint self;
     galprop_list := galprop_list self;
     _haloprop_list := _haloprop_list self;
     publications := publications self;
     new_haloprop_func_dict := new_haloprop_func_dict self;
     param_dict := param_dict self;
     _init_param_dict := l;
     bound := bound self |}.

Definition set_bound (b : gmap string string) (self : instance) :=
  {| heap := heap self;
     _input_model_blueprint := _input_model_blueprint self;
     galaxy_selection_func := galaxy_selection_func self;
     model_blueprint := model_blueprint self;
     galprop_list := galprop_list self;
     _haloprop_list := _haloprop_list self;
     publications := publications self;
     new_haloprop_func_dict := new_haloprop_func_dict self;
     param_dict := param_dict self;
     _init_param_dict := _init_param_dict self;
     bound := b |}.

(** A new dictionary object with the contents [d]. *)
Definition new_dict (d : gmap string V) (self : instance) : loc * instance :=
  let l := fresh (dom (heap self)) in
  (l, set_heap (<[l := d]> (heap self)) self).

(** The dictionary that the attribute [attr] refers to. *)
Definition deref (attr : string) (l : option loc) (self : instance)
    : result (gmap string V) :=
  let! l := getattr attr l in
  match heap self !! l with
  | Some d => Ok d
  | None => Raise (AttributeError attr)
  end.

(** [self.model_blueprint[galprop]] *)
Definition blueprint_getitem (self : instance) (galprop : string)
    : result (component_model V) :=
  match assoc (model_blueprint self) galprop with
  | Some v => Ok (as_object v)
  | None => Raise (KeyError galprop)
  end.

(** [ModelFactory.__init__]: the object as it is when the constructor of
    the subclass goes on, with the dictionary objects [h] that exist. *)
Definition ModelFactory_init (h : gmap loc (gmap string V))
    (input_model_blueprint : blueprint) (kwargs : keyword_args) : instance :=
  {| heap := h;
     _input_model_blueprint := input_model_blueprint;
     galaxy_selection_func := kw_galaxy_selection_func kwargs;
     model_blueprint := [];
     galprop_list := [];
     _haloprop_list := [];
     publications := [];
     new_haloprop_func_dict := AsDict ∅;
     param_dict := None;
     _init_param_dict := None;
     bound := ∅ |}.

(** [_interpret_input_model_blueprint] *)
Definition _interpret_input_model_blueprint (self : instance) : blueprint :=
  let model_blueprint := _input_model_blueprint self in
  if decide ("mock_factory" ∈ keys model_blueprint) then model_blueprint
  else model_blueprint ++ [("mock_factory", Callable SubhaloMockFactory)].

(** [_build_composite_lists]: first the order of the galprops.  The test
    [key is not 'mock_factory'] is one on the identity of two strings that
    the interpreter shares; it is taken as inequality of strings. *)
Definition unordered_galprop_list (self : instance) : list string :=
  filter (λ key, key ≠ "mock_factory") (keys (model_blueprint self)).

Definition choose_galprop_list (kwargs : keyword_args) (self : instance)
    : result (list string) :=
  match kw_galprop_sequence kwargs with
  | Some galprop_sequence =>
      if decide (set_of galprop_sequence ≠ set_of (unordered_galprop_list self))
      then Raise (KeyError galprop_sequence_msg)
      else Ok galprop_sequence
  | None => Ok (unordered_galprop_list self)
  end.

(** ... then the loop over [self.galprop_list]. *)
Fixpoint composite_loop (self : instance) (galprops : list string)
    (acc : composite_lists) : result composite_lists :=
  match galprops with
  | [] => Ok acc
  | galprop :: rest =>
      let! component_model := blueprint_getitem self galprop in
      let haloprop_list := add_haloprop_keys component_model (haloprop_list acc) in
      let pub_list := add_publications component_model (pub_list acc) in
      let! new_haloprop_func_dict :=
        add_func_dict component_model (func_dict_acc acc) in
      composite_loop self rest
        {| haloprop_list := haloprop_list;
           prof_param_keys_list := prof_param_keys_list acc;
           pub_list := pub_list;
           func_dict_acc := new_haloprop_func_dict |}
  end.

Definition _build_composite_lists (kwargs : keyword_args) : method instance :=
  λ self,
    match choose_galprop_list kwargs self with
    | Raise e => (self, Raise e)
    | Ok gl =>
        let self := set_galprop_list gl self in
        match composite_loop self (galprop_list self) no_lists with
        | Raise e => (self, Raise e)
        | Ok acc =>
            (set_composite_lists
               (elements (set_of (haloprop_list acc)))
               (elements (set_of (pub_list acc)))
               (func_dict_acc acc) self, Ok ())
        end
    end.

(** [_set_init_param_dict].  The dictionary comprehension reads
    [galprop_model.galprop_key] once for every item. *)
Definition namespaced_item (galprop_model : component_model V)
    (item : string * V) : result (string * V) :=
  let! galprop_key := getattr "galprop_key" (Component.galprop_key galprop_model) in
  Ok (galprop_key +:+ "_" +:+ item.1, item.2).

Definition galprop_model_param_dict (galprop_model : component_model V)
    : result (gmap string V) :=
  match Component.param_dict galprop_model with
  | Some d =>
      let! pairs := traverse (namespaced_item galprop_model) (items d) in
      Ok (dict pairs)
  | None => Ok ∅
  end.

(** [self.param_dict = d] for a dictionary [d] that has just been built. *)
Definition bind_param_dict (d : gmap string V) (self : instance) : instance :=
  let '(l, self) := new_dict d self in
  set_param_dict (Some l) self.

Fixpoint param_dict_loop (galprops : list string) : method instance :=
  λ self,
    match galprops with
    | [] => (self, Ok ())
    | galprop :: rest =>
        match
          (let! galprop_model := blueprint_getitem self galprop in
           let! galprop_model_param_dict :=
             galprop_model_param_dict galprop_model in
           let! current := deref "param_dict" (param_dict self) self in
           Ok (galprop_model_param_dict, current))
        with
        | Raise e => (self, Raise e)
        | Ok (galprop_model_param_dict, current) =>
            let intersection :=
              dom current ∩ dom galprop_model_param_dict in
            match elements intersection with
            | repeated_key :: _ =>
                (self, Raise (KeyError (repeated_param_msg repeated_key)))
            | [] =>
                param_dict_loop rest
                  (bind_param_dict
                     (dict (items galprop_model_param_dict ++ items current))
                     self)
            end
        end
    end.

(** [copy(self.param_dict)]: a new dictionary with the same items. *)
Definition _set_init_param_dict : method instance :=
  λ self,
    let self := bind_param_dict ∅ self in
    match param_dict_loop (galprop_list self) self with
    | (self, Raise e) => (self, Raise e)
    | (self, Ok _) =>
        match deref "param_dict" (param_dict self) self with
        | Raise e => (self, Raise e)
        | Ok d =>
            let '(l, self) := new_dict d self in
            (set_init_param_dict (Some l) self, Ok ())
        end
    end.

(** [_set_primary_behaviors] *)
Fixpoint _set_primary_behaviors_loop (galprops : list string)
    (self : instance) : instance :=
  match galprops with
  | [] => self
  | galprop_key :: rest =>
      let behavior_name := "mc_" +:+ galprop_key in
      _set_primary_behaviors_loop rest
        (set_bound (<[behavior_name := galprop_key]> (bound self)) self)
  end.

Definition _set_primary_behaviors : method instance :=
  λ self, (_set_primary_behaviors_loop (galprop_list self) self, Ok ()).

(** [__init__] *)
Definition __init__ (h : gmap loc (gmap string V))
    (input_model_blueprint : blueprint) (kwargs : keyword_args)
    : instance * result unit :=
  let self := ModelFactory_init h input_model_blueprint kwargs in
  let self := set_model_blueprint (_interpret_input_model_blueprint self) self in
  (_build_composite_lists kwargs >> _set_init_param_dict
     >> _set_primary_behaviors) self.

(** [SubhaloModelFactory(input_model_blueprint, **kwargs)]: the caller gets
    the instance only when [__init__] returns. *)
Definition construct (h : gmap loc (gmap string V))
    (input_model_blueprint : blueprint) (kwargs : keyword_args)
    : result instance :=
  match __init__ h input_model_blueprint kwargs with
  | (self, Ok _) => Ok self
  | (_, Raise e) => Raise e
  end.

(** [_get_stripped_param_dict]: the loop fills [output_param_dict], whose
    object the caller gets. *)
Fixpoint stripped_loop (self : instance) (galprop : string)
    (galprop_model_param_keys : list string)
    (output_param_dict : gmap string V) : result (gmap string V) :=
  match galprop_model_param_keys with
  | [] => Ok output_param_dict
  | key :: rest =>
      let! current := deref "param_dict" (param_dict self) self in
      let! val := getitem current (galprop +:+ "_" +:+ key) in
      stripped_loop self galprop rest (<[key := val]> output_param_dict)
  end.

Definition _get_stripped_param_dict (galprop : string) (self : instance)
    : instance * result loc :=
  match
    (let! galprop_model := blueprint_getitem self galprop in
     let galprop_model_param_keys :=
       match Component.param_dict galprop_model with
       | Some d => (items d).*1
       | None => []
       end in
     stripped_loop self galprop galprop_model_param_keys ∅)
  with
  | Raise e => (self, Raise e)
  | Ok output_param_dict =>
      let '(l, self) := new_dict output_param_dict self in
      (self, Ok l)
  end.


(** [restore_init_param_dict] *)
Definition restore_init_param_dict : method instance :=
  λ self,
    match getattr "_init_param_dict" (_init_param_dict self) with
    | Raise e => (self, Raise e)
    | Ok l => _set_primary_behaviors (set_param_dict (Some l) self)
    end.

(** What the caller reads as [model.param_dict]. *)
Definition read_param_dict (self : instance) : result (gmap string V) :=
  deref "param_dict" (param_dict self) self.

(** [model.param_dict[k] = v] and [del model.param_dict[k]]. *)
Definition mutate_param_dict (op : mutation V) (self : instance) : instance :=
  match param_dict self with
  | Some l => set_heap (mutate_at l op (heap self)) self
  | None => self
  end.

(** What a caller does with a model it has: changes of [param_dict] and
    calls of [restore_init_param_dict]. *)
Inductive action :=
| Mutate (op : mutation V)
| Restore.

Definition run_action (a : action) (self : instance) : instance :=
  match a with
  | Mutate op => mutate_param_dict op self
  | Restore => (restore_init_param_dict self).1
  end.

Definition run_actions (l : list action) (self : instance) : instance :=
  foldl (λ self a, run_action a self) self l.

End SubhaloModelFactory.
Arguments blueprint_value : clear implicits.
Arguments blueprint : clear implicits.
Arguments instance : clear implicits.
Arguments action : clear implicits.
End SubhaloModelFactory.

(** ** [class HodModelFactory]: typed blueprints

    The instance is its attribute dictionary [attrs] and the store of the
    objects it refers to; [_set_primary_behaviors] tests the names it is
    about to bind with [hasattr(self, name)], which sees every attribute of
    the instance and of its class. *)

Module HodModelFactory.
Section HodModelFactory.

Context {V : Type}.

(** [numpy.argsort] with its default [kind]. *)
Variable argsort : list Z → list nat.
(** [model_defaults.host_haloprop_prefix] *)
Variable host_haloprop_prefix : string.
(** The names that the class of the instance defines or inherits. *)
Variable class_attributes : gset string.

Inductive blueprint_value :=
| Features (d : list (string * component_model V))
| Callable (f : func).

Definition blueprint := list (string * blueprint_value).

(** The values of the attributes of an instance. *)
Inductive value :=
| Blueprint (bp : blueprint)
| Strings (l : list string)
| Bounds (d : gmap string Z)
| FuncDict (x : func_dict)
| Ref (l : loc)
| Function (f : func)
| ClassAttribute (name : string).

(** The objects of the store: dictionaries of parameters and the function
    objects that [getattr] and [partial] create. *)
Inductive object :=
| Dict (d : gmap string V)
| BoundMethod (f : func)
| PartialParams (f : func) (input_param_dict : value)
| PartialPos (mc_pos : value) (gal_type : string).

Record instance := {
  objects : gmap loc object;
  attrs : gmap string value;
}.

Record keyword_args := {
  kw_galaxy_selection_func : option func;
}.

Definition setattr (name : string) (v : value) (self : instance) : instance :=
  {| objects := objects self; attrs := <[name := v]> (attrs self) |}.

Definition hasattr_self (name : string) (self : instance) : bool :=
  bool_decide (name ∈ dom (attrs self) ∨ name ∈ class_attributes).

Definition getattr_self (name : string) (self : instance) : result value :=
  match attrs self !! name with
  | Some v => Ok v
  | None =>
      if decide (name ∈ class_attributes) then Ok (ClassAttribute name)
      else Raise (AttributeError name)
  end.

Definition new_object (o : object) (self : instance) : loc * instance :=
  let l := fresh (dom (objects self)) in
  (l, {| objects := <[l := o]> (objects self); attrs := attrs self |}).

(** [setattr(self, name, o)] for an object [o] that has just been made. *)
Definition bind_new (name : string) (o : object) : method instance :=
  λ self,
    let '(l, self) := new_object o self in
    (setattr name (Ref l) self, Ok ()).

(** The attributes that the methods read, as what they are used as. *)
Definition self_blueprint (name : string) (self : instance) : result blueprint :=
  let! v := getattr_self name self in
  match v with
  | Blueprint bp => Ok bp
  | _ => Raise (TypeError "object is not subscriptable")
  end.

Definition self_strings (name : string) (self : instance)
    : result (list string) :=
  let! v := getattr_self name self in
  match v with
  | Strings l => Ok l
  | _ => Raise (TypeError "object is not iterable")
  end.

Definition self_dict (name : string) (self : instance)
    : result (gmap string V) :=
  let! v := getattr_self name self in
  match v with
  | Ref l =>
      match objects self !! l with
      | Some (Dict d) => Ok d
      | _ => Raise (TypeError "object is not iterable")
      end
  | _ => Raise (TypeError "object is not iterable")
  end.

(** [blueprint[gal_type]] and [blueprint[gal_type][feature]] *)
Definition gal_type_dict (bp : blueprint) (gal_type : string)
    : result (list (string * component_model V)) :=
  match assoc bp gal_type with
  | None => Raise (KeyError gal_type)
  | Some (Callable _) => Raise (TypeError "object is not subscriptable")
  | Some (Features d) => Ok d
  end.

Definition feature (bp : blueprint) (gal_type feature : string)
    : result (component_model V) :=
  let! d := gal_type_dict bp gal_type in
  match assoc d feature with
  | Some m => Ok m
  | None => Raise (KeyError feature)
  end.

(** [ModelFactory.__init__] *)
Definition ModelFactory_init (h : gmap loc object)
    (input_model_blueprint : blueprint) (kwargs : keyword_args) : instance :=
  let self :=
    {| objects := h;
       attrs := {[ "_input_model_blueprint" := Blueprint input_model_blueprint ]} |} in
  match kw_galaxy_selection_func kwargs with
  | Some f => setattr "galaxy_selection_func" (Function f) self
  | None => self
  end.

(** [_set_gal_types]; [np.array(gal_types)[sorted_idx]] picks the
    elements at the indices of [sorted_idx]. *)
Definition occupation_bound_of (bp : blueprint) (gal_type : string) : result Z :=
  let! model := feature bp gal_type "occupation" in
  getattr "occupation_bound" (Component.occupation_bound model).

Definition index_array (gal_types : list string) (sorted_idx : list nat)
    : result (list string) :=
  traverse
    (λ i, match gal_types !! i with
          | Some gal_type => Ok gal_type
          | None => Raise (IndexError i)
          end)
    sorted_idx.

Definition sorted_gal_types (bp : blueprint) : result (list string) :=
  let gal_types := filter (λ key, key ≠ "mock_factory") (keys bp) in
  let! occupation_bounds := traverse (occupation_bound_of bp) gal_types in
  let sorted_idx := argsort occupation_bounds in
  index_array gal_types sorted_idx.

Fixpoint occupation_bound_loop (bp : blueprint) (gal_types : list string)
    (occupation_bound : gmap string Z) : result (gmap string Z) :=
  match gal_types with
  | [] => Ok occupation_bound
  | gal_type :: rest =>
      let! bound := occupation_bound_of bp gal_type in
      occupation_bound_loop bp rest (<[gal_type := bound]> occupation_bound)
  end.

Definition _set_gal_types : method instance :=
  let* bp := reading (self_blueprint "_input_model_blueprint") in
  let* gal_types := reading (λ _, sorted_gal_types bp) in
  let* _ := changing (setattr "gal_types" (Strings gal_types)) in
  let* _ := changing (setattr "occupation_bound" (Bounds ∅)) in
  let* gal_types := reading (self_strings "gal_types") in
  let* occupation_bound := reading (λ _, occupation_bound_loop bp gal_types ∅) in
  changing (setattr "occupation_bound" (Bounds occupation_bound)).

(** [interpret_input_model_blueprint] *)
Definition interpret_input_model_blueprint (self : instance) : result blueprint :=
  let! model_blueprint := self_blueprint "_input_model_blueprint" self in
  let! gal_types := self_strings "gal_types" self in
  let! _ :=
    traverse (λ gal_type, feature model_blueprint gal_type "profile") gal_types in
  if decide ("mock_factory" ∈ keys model_blueprint) then Ok model_blueprint
  else Ok (model_blueprint ++ [("mock_factory", Callable HodMockFactory)]).

(** [_set_init_param_dict] *)
Definition bind_param_dict (d : gmap string V) : method instance :=
  bind_new "param_dict" (Dict d).

Fixpoint model_instance_loop (model_instances : list (component_model V))
    : method instance :=
  match model_instances with
  | [] => changing id
  | model_instance :: rest =>
      let* current := reading (self_dict "param_dict") in
      let* model_param_dict :=
        reading (λ _, getattr "param_dict" (Component.param_dict model_instance)) in
      let intersection := dom current ∩ dom model_param_dict in
      match elements intersection with
      | repeated_key :: _ =>
          reading (λ _, Raise (KeyError (repeated_param_msg repeated_key)))
      | [] =>
          let* _ :=
            bind_param_dict (dict (items model_param_dict ++ items current)) in
          model_instance_loop rest
      end
  end.

Fixpoint param_dict_loop (gal_types : list string) : method instance :=
  match gal_types with
  | [] => changing id
  | gal_type :: rest =>
      let* model_blueprint := reading (self_blueprint "model_blueprint") in
      let* gal_type_dict := reading (λ _, gal_type_dict model_blueprint gal_type) in
      let* _ := model_instance_loop (values gal_type_dict) in
      param_dict_loop rest
  end.

Definition _set_init_param_dict : method instance :=
  let* _ := bind_param_dict ∅ in
  let* gal_types := reading (self_strings "gal_types") in
  let* _ := param_dict_loop gal_types in
  let* d := reading (self_dict "param_dict") in
  bind_new "_init_param_dict" (Dict d).

(** [_build_composite_lists] *)
Definition add_prof_param_keys (component_model : component_model V)
    (prof_param_keys : list string) : list string :=
  match Component.prof_param_keys component_model with
  | Some keys => prof_param_keys ++ keys
  | None => prof_param_keys
  end.

Fixpoint component_loop (component_dict : list (string * component_model V))
    (component_keys : list string) (acc : composite_lists)
    : result composite_lists :=
  match component_keys with
  | [] => Ok acc
  | component_key :: rest =>
      let! component_model := getitem_assoc component_dict component_key in
      let haloprop_list := add_haloprop_keys component_model (haloprop_list acc) in
      let prof_param_keys :=
        add_prof_param_keys component_model (prof_param_keys_list acc) in
      let pub_list := add_publications component_model (pub_list acc) in
      let! new_haloprop_func_dict :=
        add_func_dict component_model (func_dict_acc acc) in
      component_loop component_dict rest
        {| haloprop_list := haloprop_list;
           prof_param_keys_list := prof_param_keys;
           pub_list := pub_list;
           func_dict_acc := new_haloprop_func_dict |}
  end.

Fixpoint composite_loop (model_blueprint : blueprint) (gal_types : list string)
    (acc : composite_lists) : result composite_lists :=
  match gal_types with
  | [] => Ok acc
  | gal_type :: rest =>
      let! component_dict := gal_type_dict model_blueprint gal_type in
      let! acc := component_loop component_dict (keys component_dict) acc in
      composite_loop model_blueprint rest acc
  end.

Definition _build_composite_lists : method instance :=
  let* gal_types := reading (self_strings "gal_types") in
  let* model_blueprint := reading (self_blueprint "model_blueprint") in
  let* acc := reading (λ _, composite_loop model_blueprint gal_types no_lists) in
  let* _ := changing (setattr "_haloprop_list"
                        (Strings (elements (set_of (haloprop_list acc))))) in
  let* _ := changing (setattr "prof_param_keys"
                        (Strings (elements (set_of (prof_param_keys_list acc))))) in
  let* _ := changing (setattr "publications"
                        (Strings (elements (set_of (pub_list acc))))) in
  changing (setattr "new_haloprop_func_dict" (FuncDict (func_dict_acc acc))).

(** [_set_primary_behaviors]: the loop over the profile parameters of one
    galaxy type ... *)
Definition bind_halo_accessor (gal_prof_model : component_model V)
    (prof_param_key : string) : method instance :=
  let new_method_name := prof_param_key +:+ "_halos" in
  λ self,
    if hasattr_self new_method_name self then (self, Ok ())
    else
      (let* new_method_behavior :=
         reading (λ _,
           let! halo_prof_model :=
             getattr "halo_prof_model"
               (Component.halo_prof_model gal_prof_model) in
           getattr prof_param_key
             (Component.halo_methods halo_prof_model !! prof_param_key)) in
       bind_new new_method_name (BoundMethod new_method_behavior)) self.

Definition bind_gal_type_accessor (gal_type : string)
    (gal_prof_model : component_model V) (prof_param_key : string)
    : method instance :=
  let new_method_name := prof_param_key +:+ "_" +:+ gal_type in
  let* new_method_behavior :=
    reading (λ _,
      getattr prof_param_key
        (Component.methods gal_prof_model !! prof_param_key)) in
  bind_new new_method_name (BoundMethod new_method_behavior).

Fixpoint prof_param_loop (gal_type : string)
    (gal_prof_model : component_model V) (prof_param_keys : list string)
    : method instance :=
  match prof_param_keys with
  | [] => changing id
  | prof_param_key :: rest =>
      let* _ := bind_halo_accessor gal_prof_model prof_param_key in
      let* _ := bind_gal_type_accessor gal_type gal_prof_model prof_param_key in
      prof_param_loop gal_type gal_prof_model rest
  end.

(** ... the body of the loop over the galaxy types ... *)
Definition bind_gal_type (gal_type : string) : method instance :=
  let* model_blueprint := reading (self_blueprint "model_blueprint") in
  let* occupation_model :=
    reading (λ _, feature model_blueprint gal_type "occupation") in
  let* mc_occupation :=
    reading (λ _,
      getattr "mc_occupation"
        (Component.methods occupation_model !! "mc_occupation")) in
  let* input_param_dict := reading (getattr_self "param_dict") in
  let* _ :=
    bind_new ("mc_occupation_" +:+ gal_type)
      (PartialParams mc_occupation input_param_dict) in
  let* _ :=
    match Component.methods occupation_model !! "mean_occupation" with
    | Some mean_occupation =>
        let* input_param_dict := reading (getattr_self "param_dict") in
        bind_new ("mean_occupation_" +:+ gal_type)
          (PartialParams mean_occupation input_param_dict)
    | None => changing id
    end in
  let* model_blueprint := reading (self_blueprint "model_blueprint") in
  let* gal_prof_model :=
    reading (λ _, feature model_blueprint gal_type "profile") in
  let* prof_param_keys :=
    reading (λ _,
      getattr "prof_param_keys" (Component.prof_param_keys gal_prof_model)) in
  let* _ := prof_param_loop gal_type gal_prof_model prof_param_keys in
  let* mc_pos := reading (getattr_self "mc_pos") in
  bind_new ("pos_" +:+ gal_type) (PartialPos mc_pos gal_type).

Fixpoint gal_types_loop (gal_types : list string) : method instance :=
  match gal_types with
  | [] => changing id
  | gal_type :: rest =>
      let* _ := bind_gal_type gal_type in
      gal_types_loop rest
  end.

(** ... and the last two loops, which give every galaxy type an accessor
    of every profile parameter. *)
Definition inherit_halo_accessor (prof_param_key gal_type : string)
    : method instance :=
  let gal_prof_param_method_name := prof_param_key +:+ "_" +:+ gal_type in
  λ self,
    if hasattr_self gal_prof_param_method_name self then (self, Ok ())
    else
      (let halo_prof_param_method_name := prof_param_key +:+ "_halos" in
       let* halo_prof_param_method_behavior :=
         reading (getattr_self halo_prof_param_method_name) in
       changing (setattr gal_prof_param_method_name
                   halo_prof_param_method_behavior)) self.

Fixpoint inherit_gal_types_loop (prof_param_key : string)
    (gal_types : list string) : method instance :=
  match gal_types with
  | [] => changing id
  | gal_type :: rest =>
      let* _ := inherit_halo_accessor prof_param_key gal_type in
      inherit_gal_types_loop prof_param_key rest
  end.

Fixpoint inherit_loop (prof_param_keys : list string) : method instance :=
  match prof_param_keys with
  | [] => changing id
  | prof_param_key :: rest =>
      let* gal_types := reading (self_strings "gal_types") in
      let* _ := inherit_gal_types_loop prof_param_key gal_types in
      inherit_loop rest
  end.

Definition bind_all_gal_types : method instance :=
  let* gal_types := reading (self_strings "gal_types") in
  gal_types_loop gal_types.

Definition inherit_all : method instance :=
  let* prof_param_keys := reading (self_strings "prof_param_keys") in
  inherit_loop prof_param_keys.

Definition _set_primary_behaviors : method instance :=
  let* _ := bind_all_gal_types in
  inherit_all.

(** [mc_pos]: [x *= a] on arrays of one dimension, where [a] has the
    length of [x] or the length one; [x += a] likewise. *)
Definition inplace (op : float → float → float) (x a : list float)
    : result (list float) :=
  if decide (length a = length x) then Ok (zip_with op x a)
  else
    match a with
    | [a0] => Ok ((λ xi, op xi a0) <$> x)
    | _ => Raise (ValueError "operands could not be broadcast together")
    end.

Definition mc_pos (galaxy_table : table) (gal_type : string) (self : instance)
    : result (list float * list float * list float) :=
  let! model_blueprint := self_blueprint "model_blueprint" self in
  let! gal_prof_model := feature model_blueprint gal_type "profile" in
  let! sampler := getattr "mc_pos" (Component.mc_pos gal_prof_model) in
  let '(x, y, z) := sampler galaxy_table in
  let! halo_boundary :=
    getattr "halo_boundary" (Component.halo_boundary gal_prof_model) in
  let halo_boundary_key := host_haloprop_prefix +:+ halo_boundary in
  let! x := (let! r := getitem galaxy_table halo_boundary_key in
             inplace PrimFloat.mul x ((λ r, PrimFloat.div r 1000%float) <$> r)) in
  let! y := (let! r := getitem galaxy_table halo_boundary_key in
             inplace PrimFloat.mul y ((λ r, PrimFloat.div r 1000%float) <$> r)) in
  let! z := (let! r := getitem galaxy_table halo_boundary_key in
             inplace PrimFloat.mul z ((λ r, PrimFloat.div r 1000%float) <$> r)) in
  let halo_xpos_key := host_haloprop_prefix +:+ "x" in
  let halo_ypos_key := host_haloprop_prefix +:+ "y" in
  let halo_zpos_key := host_haloprop_prefix +:+ "z" in
  let! x := (let! c := getitem galaxy_table halo_xpos_key in
             inplace PrimFloat.add x c) in
  let! y := (let! c := getitem galaxy_table halo_ypos_key in
             inplace PrimFloat.add y c) in
  let! z := (let! c := getitem galaxy_table halo_zpos_key in
             inplace PrimFloat.add z c) in
  Ok (x, y, z).

(** [restore_init_param_dict] *)
Definition restore_init_param_dict : method instance :=
  let* init := reading (getattr_self "_init_param_dict") in
  let* _ := changing (setattr "param_dict" init) in
  _set_primary_behaviors.

(** [__init__]: its first two statements,
    [self._set_gal_types()] and
    [self.model_blueprint = self.interpret_input_model_blueprint()] ... *)
Definition set_gal_types_and_blueprint : method instance :=
  let* _ := _set_gal_types in
  let* model_blueprint := reading interpret_input_model_blueprint in
  changing (setattr "model_blueprint" (Blueprint model_blueprint)).

(** ... and the whole of it. *)
Definition __init__ (h : gmap loc object) (input_model_blueprint : blueprint)
    (kwargs : keyword_args) : instance * result unit :=
  (let* _ := set_gal_types_and_blueprint in
   let* _ := _set_init_param_dict in
   let* _ := _build_composite_lists in
   _set_primary_behaviors)
    (ModelFactory_init h input_model_blueprint kwargs).

Definition construct (h : gmap loc object) (input_model_blueprint : blueprint)
    (kwargs : keyword_args) : result instance :=
  match __init__ h input_model_blueprint kwargs with
  | (self, Ok _) => Ok self
  | (_, Raise e) => Raise e
  end.



(** What a caller does with a model it has: [model.param_dict[k] = v],
    [del model.param_dict[k]] and calls of [restore_init_param_dict]. *)
Definition mutate_param_dict (op : mutation V) (self : instance) : instance :=
  match attrs self !! "param_dict" with
  | Some (Ref l) =>
      match objects self !! l with
      | Some (Dict d) =>
          {| objects := <[l := Dict (mutate op d)]> (objects self);
             attrs := attrs self |}
      | _ => self
      end
  | _ => self
  end.

Inductive action :=
| Mutate (op : mutation V)
| Restore.

Definition run_action (a : action) (self : instance) : instance :=
  match a with
  | Mutate op => mutate_param_dict op self
  | Restore => (restore_init_param_dict self).1
  end.

Definition run_actions (l : list action) (self : instance) : instance :=
  foldl (λ self a, run_action a self) self l.

End HodModelFactory.
Arguments blueprint_value : clear implicits.
Arguments blueprint : clear implicits.
Arguments value : clear implicits.
Arguments object : clear implicits.
Arguments instance : clear implicits.
Arguments action : clear implicits.
End HodModelFactory.

(** ** The merging of parameter dictionaries, without the objects

    Both [_set_init_param_dict] run the same merge over the dictionaries
    that the component models contribute, one after the other; [merge] is
    this fold, on the contents of the dictionaries. *)

Fixpoint merge {V} (current : gmap string V) (contributions : list (gmap string V))
    : result (gmap string V) :=
  match contributions with
  | [] => Ok current
  | d :: rest =>
      match elements (dom current ∩ dom d) with
      | repeated_key :: _ => Raise (KeyError (repeated_param_msg repeated_key))
      | [] => merge (dict (items d ++ items current)) rest
      end
  end.

(** The same with the contributions computed on the way, as the loops do:
    [contribution a] is what the component model [a] contributes, or the
    exception that reading it raises. *)
Fixpoint merge_with {V A} (contribution : A → result (gmap string V))
    (current : gmap string V) (l : list A) : result (gmap string V) :=
  match l with
  | [] => Ok current
  | a :: rest =>
      let! d := contribution a in
      match elements (dom current ∩ dom d) with
      | repeated_key :: _ => Raise (KeyError (repeated_param_msg repeated_key))
      | [] => merge_with contribution (dict (items d ++ items current)) rest
      end
  end.

(** Two of the contributions, or the dictionary at the start and one of
    the contributions, have the key [k]. *)
Definition shared_key {V} (current : gmap string V)
    (contributions : list (gmap string V)) (k : string) : Prop :=
  (∃ j dj, contributions !! j = Some dj ∧ k ∈ dom dj ∧ k ∈ dom current) ∨
  (∃ i j di dj, (i < j)%nat ∧ contributions !! i = Some di ∧
     contributions !! j = Some dj ∧ k ∈ dom di ∧ k ∈ dom dj).

(** What the component model under [galprop] contributes in the flat
    factory, and what a component model contributes in the typed one. *)
Definition flat_contribution {V} (self : SubhaloModelFactory.instance V)
    (galprop : string) : result (gmap string V) :=
  let! galprop_model := SubhaloModelFactory.blueprint_getitem self galprop in
  SubhaloModelFactory.galprop_model_param_dict galprop_model.

Definition typed_contribution {V} (model_instance : component_model V)
    : result (gmap string V) :=
  getattr "param_dict" (Component.param_dict model_instance).

(** The component models of a typed blueprint in the order in which
    [_set_init_param_dict] visits them. *)
Definition typed_models {V} (model_blueprint : HodModelFactory.blueprint V)
    (gal_types : list string) : result (list (component_model V)) :=
  let! dicts := traverse (HodModelFactory.gal_type_dict model_blueprint) gal_types in
  Ok (concat (values <$> dicts)).

(** The two nested loops of the typed factory on the contents of the
    dictionaries. *)
Fixpoint typed_merge {V} (model_blueprint : HodModelFactory.blueprint V)
    (current : gmap string V) (gal_types : list string)
    : result (gmap string V) :=
  match gal_types with
  | [] => Ok current
  | gal_type :: rest =>
      let! gal_type_dict := HodModelFactory.gal_type_dict model_blueprint gal_type in
      let! current := merge_with typed_contribution current (values gal_type_dict) in
      typed_merge model_blueprint current rest
  end.

(** ** The namespacing rule, as the specification words it

    Every private key [k] of a component model becomes [<identity>_<k>];
    a component model without a private dictionary contributes nothing;
    the composite dictionary is the union of the contributions. *)
Definition namespaced_key (identity k : string) : string :=
  identity +:+ "_" +:+ k.

Definition spec_namespace {V} (identity : string) (d : gmap string V)
    : gmap string V :=
  list_to_map ((λ kv, (namespaced_key identity kv.1, kv.2)) <$> map_to_list d).

Definition spec_contribution {V} (m : component_model V) : gmap string V :=
  match Component.param_dict m, Component.galprop_key m with
  | Some d, Some identity => spec_namespace identity d
  | _, _ => ∅
  end.

Definition spec_param_dict {V} (models : list (component_model V))
    : gmap string V :=
  ⋃ (spec_contribution <$> models).

(** ** Invariants of the typed instance

    [only_param_dict self self']: from [self] to [self'] no other attribute
    than [param_dict] has changed.  [no_functions self]: no attribute of
    [self] refers to a function object, so that no behaviour has been bound. *)
Definition only_param_dict {V} (self self' : HodModelFactory.instance V) : Prop :=
  ∀ name, name ≠ "param_dict" →
    HodModelFactory.attrs self' !! name = HodModelFactory.attrs self !! name.


(** [only_adds self self']: from [self] to [self'] no object has been made
    or changed, and every attribute that was bound is bound to what it was. *)
Definition only_adds {V} (self self' : HodModelFactory.instance V) : Prop :=
  HodModelFactory.objects self' = HodModelFactory.objects self ∧
  HodModelFactory.attrs self ⊆ HodModelFactory.attrs self'.

(** [makes_functions self self']: from [self] to [self'] every object has
    stayed as it was, every object made is a function object, and every
    attribute that was bound is bound to what it was or to an object made. *)
Definition makes_functions {V} (self self' : HodModelFactory.instance V) : Prop :=
  HodModelFactory.objects self ⊆ HodModelFactory.objects self' ∧
  (∀ l o, HodModelFactory.objects self' !! l = Some o →
          HodModelFactory.objects self !! l = None →
          ∀ d, o ≠ HodModelFactory.Dict d) ∧
  (∀ name v, HodModelFactory.attrs self !! name = Some v →
     HodModelFactory.attrs self' !! name = Some v ∨
     ∃ l, HodModelFactory.attrs self' !! name = Some (HodModelFactory.Ref l) ∧
          HodModelFactory.objects self !! l = None ∧
          is_Some (HodModelFactory.objects self' !! l)).

(** ** [numpy.argsort]

    What numpy promises of [argsort(a)] with the default [kind]: the indices
    of [a], in an order in which the elements of [a] ascend.  Only the kinds
    ['stable'] and ['mergesort'] promise more: that equal elements keep
    their order. *)
Definition at_index (a : list Z) (i : nat) : Z := default 0%Z (a !! i).



(** The order of the indices of [a] by element first and by index second. *)
Definition by_element_then_index (a : list Z) (i j : nat) : Prop :=
  (at_index a i < at_index a j)%Z ∨
  (at_index a i = at_index a j ∧ (i < j)%nat).

(** Two sorts by insertion that meet the contract: the indices are
    inserted one after the other, each [before] the first index whose
    element it precedes.  With [<] equal elements keep their order, with
    [≤] they end up in the reverse order. *)
Fixpoint insert_index (before : Z → Z → bool) (a : list Z) (i : nat)
    (sorted : list nat) : list nat :=
  match sorted with
  | [] => [i]
  | j :: rest =>
      if before (at_index a i) (at_index a j) then i :: j :: rest
      else j :: insert_index before a i rest
  end.

Definition insertion_argsort (before : Z → Z → bool) (a : list Z) : list nat :=
  foldl (λ sorted i, insert_index before a i sorted) [] (seq 0 (length a)).

Definition stable_argsort : list Z → list nat := insertion_argsort Z.ltb.

(** ** Models and blueprints of the examples *)

Module Examples.

(** The methods of [HodModelFactory] and of [ModelFactory]. *)
Definition class_attributes : gset string :=
  list_to_set
    ["__init__"; "populate_mock"; "interpret_input_model_blueprint";
     "_set_gal_types"; "_set_primary_behaviors"; "mc_pos";
     "build_halo_prof_lookup_tables"; "_set_init_param_dict";
     "restore_init_param_dict"; "_build_composite_lists"].

(** A component model of the flat factory: its identity, its parameters
    and its behaviour [mc_<identity>]. *)
Definition galprop_model (identity : string) (params : list (string * Z))
    (f : func) : component_model Z :=
  {| Component.galprop_key := Some identity;
     Component.param_dict := Some (list_to_map params);
     Component.prim_haloprop_key := None;
     Component.sec_haloprop_key := None;
     Component.publications := None;
     Component.new_haloprop_func_dict := None;
     Component.prof_param_keys := None;
     Component.occupation_bound := None;
     Component.halo_boundary := None;
     Component.halo_prof_model := None;
     Component.mc_pos := None;
     Component.methods := {[ "mc_" +:+ identity := f ]} |}.

(** The same without the attribute [param_dict]. *)
Definition galprop_model_without_params (identity : string) (f : func)
    : component_model Z :=
  {| Component.galprop_key := Some identity;
     Component.param_dict := None;
     Component.prim_haloprop_key := None;
     Component.sec_haloprop_key := None;
     Component.publications := None;
     Component.new_haloprop_func_dict := None;
     Component.prof_param_keys := None;
     Component.occupation_bound := None;
     Component.halo_boundary := None;
     Component.halo_prof_model := None;
     Component.mc_pos := None;
     Component.methods := {[ "mc_" +:+ identity := f ]} |}.

(** A component model with a dictionary of halo property functions. *)
Definition haloprop_func_model (identity : string)
    (funcs : list (string * func)) : component_model Z :=
  {| Component.galprop_key := Some identity;
     Component.param_dict := None;
     Component.prim_haloprop_key := None;
     Component.sec_haloprop_key := None;
     Component.publications := None;
     Component.new_haloprop_func_dict := Some (list_to_map funcs);
     Component.prof_param_keys := None;
     Component.occupation_bound := None;
     Component.halo_boundary := None;
     Component.halo_prof_model := None;
     Component.mc_pos := None;
     Component.methods := ∅ |}.

(** An occupation model and a profile model of the typed factory. *)
Definition occupation_model (bound : Z) (params : list (string * Z))
    : component_model Z :=
  {| Component.galprop_key := Some "occupation";
     Component.param_dict := Some (list_to_map params);
     Component.prim_haloprop_key := Some "mvir";
     Component.sec_haloprop_key := None;
     Component.publications := None;
     Component.new_haloprop_func_dict := None;
     Component.prof_param_keys := None;
     Component.occupation_bound := Some bound;
     Component.halo_boundary := None;
     Component.halo_prof_model := None;
     Component.mc_pos := None;
     Component.methods := {[ "mc_occupation" := 10%nat; "mean_occupation" := 11%nat ]} |}.

Definition profile_model (params : list (string * Z)) (keys : list string)
    (sample : list float * list float * list float) : component_model Z :=
  {| Component.galprop_key := Some "profile";
     Component.param_dict := Some (list_to_map params);
     Component.prim_haloprop_key := None;
     Component.sec_haloprop_key := None;
     Component.publications := None;
     Component.new_haloprop_func_dict := None;
     Component.prof_param_keys := Some keys;
     Component.occupation_bound := None;
     Component.halo_boundary := Some "rvir";
     Component.halo_prof_model :=
       Some {| Component.halo_methods :=
                 list_to_map ((λ key, (key, 20%nat)) <$> keys) |};
     Component.mc_pos := Some (λ _, sample);
     Component.methods := list_to_map ((λ key, (key, 30%nat)) <$> keys) |}.

(** A component model given a dictionary of halo property functions. *)
Definition with_funcs (funcs : list (string * func)) (m : component_model Z)
    : component_model Z :=
  {| Component.galprop_key := Component.galprop_key m;
     Component.param_dict := Component.param_dict m;
     Component.prim_haloprop_key := Component.prim_haloprop_key m;
     Component.sec_haloprop_key := Component.sec_haloprop_key m;
     Component.publications := Component.publications m;
     Component.new_haloprop_func_dict := Some (list_to_map funcs);
     Component.prof_param_keys := Component.prof_param_keys m;
     Component.occupation_bound := Component.occupation_bound m;
     Component.halo_boundary := Component.halo_boundary m;
     Component.halo_prof_model := Component.halo_prof_model m;
     Component.mc_pos := Component.mc_pos m;
     Component.methods := Component.methods m |}.

Definition no_keywords : SubhaloModelFactory.keyword_args :=
  {| SubhaloModelFactory.kw_galprop_sequence := None;
     SubhaloModelFactory.kw_galaxy_selection_func := None |}.

Definition in_sequence (galprop_sequence : list string)
    : SubhaloModelFactory.keyword_args :=
  {| SubhaloModelFactory.kw_galprop_sequence := Some galprop_sequence;
     SubhaloModelFactory.kw_galaxy_selection_func := None |}.

Definition no_typed_keywords : HodModelFactory.keyword_args :=
  {| HodModelFactory.kw_galaxy_selection_func := None |}.

Definition no_sample : list float * list float * list float := ([], [], []).

(** A galaxy type with an occupation model and a profile model. *)
Definition gal_type (bound : Z) (occupation_params profile_params : list (string * Z))
    (prof_param_keys : list string) : HodModelFactory.blueprint_value Z :=
  HodModelFactory.Features
    [("occupation", occupation_model bound occupation_params);
     ("profile", profile_model profile_params prof_param_keys no_sample)].

(** A flat blueprint: the second component model has no parameters. *)
Definition flat_blueprint : SubhaloModelFactory.blueprint Z :=
  [("stellar_mass",
    SubhaloModelFactory.Model (galprop_model "stellar_mass" [("slope", 1%Z)] 40%nat));
   ("sfr",
    SubhaloModelFactory.Model (galprop_model_without_params "sfr" 41%nat))].

(** The instance on which [__init__] calls [_set_init_param_dict]. *)
Definition flat_ready (bp : SubhaloModelFactory.blueprint Z)
    (kwargs : SubhaloModelFactory.keyword_args) : SubhaloModelFactory.instance Z :=
  let self := SubhaloModelFactory.ModelFactory_init ∅ bp kwargs in
  let self :=
    SubhaloModelFactory.set_model_blueprint
      (SubhaloModelFactory._interpret_input_model_blueprint self) self in
  (SubhaloModelFactory._build_composite_lists kwargs self).1.



(** Two slots whose component models report the identity of the other. *)
Definition swapped_identity_blueprint : SubhaloModelFactory.blueprint Z :=
  [("a", SubhaloModelFactory.Model (galprop_model "b" [("p", 1%Z)] 40%nat));
   ("b", SubhaloModelFactory.Model (galprop_model "a" [("p", 2%Z)] 41%nat))].

(** One slot under another name than the identity of its component model. *)
Definition renamed_blueprint : SubhaloModelFactory.blueprint Z :=
  [("a", SubhaloModelFactory.Model (galprop_model "x" [("p", 1%Z)] 40%nat))].

(** Two component models without parameters. *)
Definition plain_blueprint : SubhaloModelFactory.blueprint Z :=
  [("stellar_mass",
    SubhaloModelFactory.Model (galprop_model_without_params "stellar_mass" 40%nat));
   ("sfr",
    SubhaloModelFactory.Model (galprop_model_without_params "sfr" 41%nat))].

(** Two component models with a dictionary of halo property functions
    each: under different keys, and under the same key. *)
Definition funcs_blueprint (key1 key2 : string) : SubhaloModelFactory.blueprint Z :=
  [("stellar_mass",
    SubhaloModelFactory.Model
      (with_funcs [(key1, 50%nat)] (galprop_model_without_params "stellar_mass" 40%nat)));
   ("sfr",
    SubhaloModelFactory.Model
      (with_funcs [(key2, 51%nat)] (galprop_model_without_params "sfr" 41%nat)))].

Definition typed_funcs_blueprint (key1 key2 : string) : HodModelFactory.blueprint Z :=
  [("centrals",
    HodModelFactory.Features
      [("occupation", with_funcs [(key1, 50%nat)] (occupation_model 1 []));
       ("profile", with_funcs [(key2, 51%nat)] (profile_model [] [] no_sample))])].

(** The table and the blueprint of the example of [mc_pos]: one row, a halo
    of radius 200 at (10, 20, 30), and a profile model that samples the point
    (0.1, 0, 0). *)
Definition one_row_table : table :=
  {[ "halo_rvir" := [200%float]; "halo_x" := [10%float];
     "halo_y" := [20%float]; "halo_z" := [30%float] ]}.

Definition one_row_blueprint : HodModelFactory.blueprint Z :=
  [("centrals",
    HodModelFactory.Features
      [("occupation", occupation_model 1 []);
       ("profile",
        profile_model [] [] ([0.1%float], [0%float], [0%float]))])].

(** Centrals with the occupation bound 1, satellites with 20 and orphans
    with 1, declared in this order. *)
Definition three_types_blueprint : HodModelFactory.blueprint Z :=
  [("centrals", gal_type 1 [] [] []);
   ("satellites", gal_type 20 [] [] []);
   ("orphans", gal_type 1 [] [] [])].

(** A typed blueprint with one galaxy type. *)
Definition centrals_blueprint : HodModelFactory.blueprint Z :=
  [("centrals", gal_type 1 [("logMmin", 12%Z)] [("conc_bias", 1%Z)] ["conc"])].

Definition typed_ready (bp : HodModelFactory.blueprint Z)
    : HodModelFactory.instance Z :=
  (HodModelFactory.set_gal_types_and_blueprint stable_argsort class_attributes
     (HodModelFactory.ModelFactory_init ∅ bp no_typed_keywords)).1.

(** Centrals whose profile model declares the profile parameter [conc],
    and satellites whose profile model declares none. *)
Definition fallback_blueprint : HodModelFactory.blueprint Z :=
  [("centrals", gal_type 1 [] [] ["conc"]);
   ("satellites", gal_type 20 [] [] [])].


End Examples.

(** * Properties *)

Section Dictionaries.

Context {V : Type}.
Implicit Types d current : gmap string V.

Lemma dict_items d : dict (items d) = d.
Proof.
  unfold dict, items.
  rewrite <- (list_to_map_to_list d) at 2.
  apply list_to_map_proper.
  - rewrite fmap_reverse, reverse_Permutation. apply NoDup_fst_map_to_list.
  - apply reverse_Permutation.
Qed.

Lemma dict_app (l1 l2 : list (string * V)) :
  dict (l1 ++ l2) = dict l2 ∪ dict l1.
Proof. unfold dict. by rewrite reverse_app, list_to_map_app. Qed.

Lemma dict_items_app d current :
  dict (items d ++ items current) = current ∪ d.
Proof. by rewrite dict_app, !dict_items. Qed.

Lemma elements_nil_disjoint d current :
  elements (dom current ∩ dom d) = [] → current ##ₘ d.
Proof.
  intros H. apply elements_empty_inv in H.
  apply map_disjoint_dom. set_solver.
Qed.

Lemma elements_cons_shared d current k l :
  elements (dom current ∩ dom d) = k :: l → k ∈ dom current ∧ k ∈ dom d.
Proof.
  intros H.
  assert (k ∈ elements (dom current ∩ dom d)) as Hk by (rewrite H; left).
  apply elem_of_elements in Hk. set_solver.
Qed.

End Dictionaries.

Section Merge.

Context {V : Type}.
Implicit Types d current : gmap string V.
Implicit Types ds : list (gmap string V).

Lemma merge_ok_lookup ds : ∀ current d,
  merge current ds = Ok d →
  ∀ j v, d !! j = Some v ↔
    current !! j = Some v ∨ ∃ i di, ds !! i = Some di ∧ di !! j = Some v.
Proof.
  induction ds as [|d0 ds IH]; intros current d Hm j v; simpl in Hm.
  - inversion Hm; subst. split; [by left|].
    intros [?|(i & di & Hi & _)]; [done|]. by destruct i.
  - destruct (elements (dom current ∩ dom d0)) eqn:He; [|done].
    apply elements_nil_disjoint in He.
    rewrite dict_items_app in Hm.
    rewrite (IH _ _ Hm j v), (lookup_union_Some _ _ _ _ He).
    split.
    + intros [[?|?]|(i & di & Hi & Hj)]; [by left| |].
      * right. by exists 0%nat, d0.
      * right. by exists (S i), di.
    + intros [?|(i & di & Hi & Hj)]; [by left; left|].
      destruct i as [|i]; simpl in Hi.
      * inversion Hi; subst. by left; right.
      * right. by exists i, di.
Qed.

Lemma merge_raise ds : ∀ current e,
  merge current ds = Raise e →
  ∃ k, e = KeyError (repeated_param_msg k) ∧ shared_key current ds k.
Proof.
  induction ds as [|d0 ds IH]; intros current e Hm; simpl in Hm; [done|].
  destruct (elements (dom current ∩ dom d0)) as [|k l] eqn:He.
  - rewrite dict_items_app in Hm.
    destruct (IH _ _ Hm) as (k & -> & Hk). exists k. split; [done|].
    destruct Hk as [(j & dj & Hj & Hkj & Hkc)|(i & j & di & dj & Hij & Hi & Hj & Hki & Hkj)].
    + rewrite dom_union_L in Hkc. apply elem_of_union in Hkc as [Hkc|Hkc].
      * left. by exists (S j), dj.
      * right. exists 0%nat, (S j), d0, dj. repeat split; [lia|done..].
    + right. exists (S i), (S j), di, dj. repeat split; [lia|done..].
  - inversion Hm; subst. exists k. split; [done|].
    apply elements_cons_shared in He as [? ?].
    left. by exists 0%nat, d0.
Qed.


Lemma merge_no_shared_key ds current :
  (∀ k, ¬ shared_key current ds k) → ∃ d, merge current ds = Ok d.
Proof.
  intros Hno. destruct (merge current ds) as [d|e] eqn:Hm; [eauto|].
  destruct (merge_raise _ _ _ Hm) as (k & _ & Hk). by destruct (Hno k).
Qed.

(** The loops compute the contributions on the way. *)
Lemma merge_with_traverse {A} (c : A → result (gmap string V)) l : ∀ current ds,
  traverse c l = Ok ds → merge_with c current l = merge current ds.
Proof.
  induction l as [|a l IH]; intros current ds Ht; simpl in *.
  - by inversion Ht.
  - destruct (c a) as [d|]; [|done]. simpl.
    destruct (traverse c l) as [ds'|] eqn:Hl; [|done].
    inversion Ht; subst. simpl.
    destruct (elements _); [|done]. by apply IH.
Qed.

Lemma merge_with_ok {A} (c : A → result (gmap string V)) l : ∀ current d,
  merge_with c current l = Ok d →
  ∃ ds, traverse c l = Ok ds ∧ merge current ds = Ok d.
Proof.
  induction l as [|a l IH]; intros current d Hm; simpl in *.
  - inversion Hm; subst. by exists [].
  - destruct (c a) as [d0|]; [|done]. simpl in Hm.
    destruct (elements (dom current ∩ dom d0)) eqn:He; [|done].
    destruct (IH _ _ Hm) as (ds & -> & Hds).
    exists (d0 :: ds). split; [done|]. simpl. by rewrite He.
Qed.

End Merge.

Section Namespacing.

Context {V : Type}.
Implicit Types d pd : gmap string V.

#[local] Instance namespaced_key_inj identity :
  Inj (=) (=) (namespaced_key identity).
Proof.
  intros k1 k2 H. unfold namespaced_key in H.
  by do 2 apply String.app_inj in H.
Qed.

Lemma spec_namespace_kmap identity d :
  spec_namespace identity d = kmap (namespaced_key identity) d.
Proof. done. Qed.

Lemma spec_namespace_lookup identity d j v :
  spec_namespace identity d !! j = Some v ↔
  ∃ k, j = namespaced_key identity k ∧ d !! k = Some v.
Proof. rewrite spec_namespace_kmap. apply lookup_kmap_Some, _. Qed.

Lemma string_length_app (s1 s2 : string) :
  String.length (s1 +:+ s2) = (String.length s1 + String.length s2)%nat.
Proof. induction s1 as [|c s1 IH]; simpl; [done|by rewrite IH]. Qed.

(** A namespaced key is never the key it comes from. *)
Lemma namespaced_key_neq identity k : namespaced_key identity k ≠ k.
Proof.
  intros H. apply (f_equal String.length) in H.
  unfold namespaced_key in H. rewrite !string_length_app in H.
  simpl in H. lia.
Qed.

Lemma traverse_namespaced_item (m : component_model V) identity l :
  Component.galprop_key m = Some identity →
  traverse (SubhaloModelFactory.namespaced_item m) l =
  Ok ((λ kv, (namespaced_key identity kv.1, kv.2)) <$> l).
Proof.
  intros Hid. induction l as [|kv l IH]; [done|].
  simpl. unfold SubhaloModelFactory.namespaced_item at 1.
  rewrite Hid. simpl. by rewrite IH.
Qed.

(** What the flat factory takes from a component model is what the
    namespacing rule says. *)
Lemma galprop_model_param_dict_spec (m : component_model V) d :
  SubhaloModelFactory.galprop_model_param_dict m = Ok d →
  d = spec_contribution m.
Proof.
  unfold SubhaloModelFactory.galprop_model_param_dict, spec_contribution.
  destruct (Component.param_dict m) as [pd|]; [|by inversion 1].
  destruct (Component.galprop_key m) as [identity|] eqn:Hid.
  - rewrite (traverse_namespaced_item _ identity) by done. simpl.
    inversion 1; subst. unfold dict, spec_namespace, items.
    apply list_to_map_proper; [|apply reverse_Permutation].
    rewrite fmap_reverse, reverse_Permutation, <- list_fmap_compose.
    apply (NoDup_fmap_2_strong (λ kv, namespaced_key identity kv.1)).
    + intros [k1 v1] [k2 v2] H1 H2 Hk. simpl in Hk.
      apply (inj _) in Hk. subst.
      apply elem_of_map_to_list in H1, H2. congruence.
    + apply NoDup_map_to_list.
  - unfold items. destruct (map_to_list pd) as [|[k v] l] eqn:Hl.
    + simpl. by inversion 1.
    + simpl. unfold SubhaloModelFactory.namespaced_item at 1.
      by rewrite Hid.
Qed.

Lemma galprop_model_param_dict_ok (m : component_model V) :
  (is_Some (Component.param_dict m) → is_Some (Component.galprop_key m)) →
  SubhaloModelFactory.galprop_model_param_dict m = Ok (spec_contribution m).
Proof.
  intros Hid.
  destruct (SubhaloModelFactory.galprop_model_param_dict m) as [d|e] eqn:Hd.
  - by rewrite (galprop_model_param_dict_spec _ _ Hd).
  - unfold SubhaloModelFactory.galprop_model_param_dict in Hd.
    destruct (Component.param_dict m) as [pd|]; [|done].
    destruct Hid as [identity Hid]; [done|].
    by rewrite (traverse_namespaced_item _ identity) in Hd.
Qed.

Lemma merge_union_list (ds : list (gmap string V)) : ∀ current d,
  merge current ds = Ok d → d = current ∪ ⋃ ds.
Proof.
  induction ds as [|d0 ds IH]; intros current d Hm; simpl in Hm.
  - inversion Hm; subst; simpl. by rewrite (right_id_L ∅ (∪)).
  - destruct (elements _); [|done]. rewrite dict_items_app in Hm.
    rewrite (IH _ _ Hm). simpl. by rewrite (assoc_L (∪)).
Qed.

End Namespacing.

Section FlatParamDict.

Context {V : Type}.
Import SubhaloModelFactory.
Implicit Types self : instance V.
Implicit Types d current : gmap string V.

Lemma merge_with_ext {A} (c c' : A → result (gmap string V)) l :
  (∀ a, c a = c' a) → ∀ current, merge_with c current l = merge_with c' current l.
Proof.
  intros Hc. induction l as [|a l IH]; intros current; simpl; [done|].
  rewrite Hc. destruct (c' a); simpl; [|done].
  by destruct (elements _).
Qed.

Lemma read_bind_param_dict d self :
  read_param_dict (bind_param_dict d self) = Ok d.
Proof.
  unfold read_param_dict, bind_param_dict, deref. simpl.
  by rewrite lookup_insert_eq.
Qed.

Lemma flat_contribution_frame self self' galprop :
  model_blueprint self' = model_blueprint self →
  flat_contribution self' galprop = flat_contribution self galprop.
Proof.
  intros H. unfold flat_contribution, blueprint_getitem. by rewrite H.
Qed.

(** The loop of [_set_init_param_dict] is the merge of the contributions
    and changes nothing but [param_dict] and the store. *)
Lemma param_dict_loop_merge galprops : ∀ self current,
  read_param_dict self = Ok current →
  ∃ self',
    param_dict_loop galprops self =
      (self', match merge_with (flat_contribution self) current galprops with
              | Ok _ => Ok ()
              | Raise e => Raise e
              end) ∧
    model_blueprint self' = model_blueprint self ∧
    galprop_list self' = galprop_list self ∧
    bound self' = bound self ∧
    (∀ d, merge_with (flat_contribution self) current galprops = Ok d →
          read_param_dict self' = Ok d).
Proof.
  induction galprops as [|galprop rest IH]; intros self current Hcur.
  - exists self. simpl. repeat split; try done. by intros d [= <-].
  - simpl. unfold flat_contribution at 1 3.
    destruct (blueprint_getitem self galprop) as [m|e]; simpl;
      [|by exists self].
    destruct (galprop_model_param_dict m) as [d0|e]; simpl;
      [|by exists self].
    unfold read_param_dict in Hcur. rewrite Hcur. simpl.
    destruct (elements (dom current ∩ dom d0)) as [|k l]; [|by exists self].
    destruct (IH (bind_param_dict (dict (items d0 ++ items current)) self)
                _ (read_bind_param_dict _ _))
      as (self' & Hloop & Hbp & Hgl & Hb & Hd).
    exists self'.
    rewrite (merge_with_ext (flat_contribution self)
               (flat_contribution
                  (bind_param_dict (dict (items d0 ++ items current)) self)));
      [|intros a; symmetry; by apply flat_contribution_frame].
    repeat split; done.
Qed.

(** The whole of [_set_init_param_dict]. *)
Lemma _set_init_param_dict_merge self :
  ∃ self',
    _set_init_param_dict self =
      (self', match merge_with (flat_contribution self) ∅ (galprop_list self) with
              | Ok _ => Ok ()
              | Raise e => Raise e
              end) ∧
    model_blueprint self' = model_blueprint self ∧
    galprop_list self' = galprop_list self ∧
    bound self' = bound self ∧
    (∀ d, merge_with (flat_contribution self) ∅ (galprop_list self) = Ok d →
          read_param_dict self' = Ok d ∧
          deref "_init_param_dict" (_init_param_dict self') self' = Ok d ∧
          param_dict self' ≠ _init_param_dict self').
Proof.
  unfold _set_init_param_dict.
  destruct (param_dict_loop_merge (galprop_list self) (bind_param_dict ∅ self) ∅
              (read_bind_param_dict _ _))
    as (self1 & Hloop & Hbp & Hgl & Hb & Hd).
  change (galprop_list (bind_param_dict ∅ self)) with (galprop_list self) in *.
  rewrite (merge_with_ext (flat_contribution self)
             (flat_contribution (bind_param_dict ∅ self)));
    [|intros a; symmetry; by apply flat_contribution_frame].
  rewrite Hloop.
  destruct (merge_with (flat_contribution (bind_param_dict ∅ self)) ∅
              (galprop_list self)) as [d|e] eqn:Hm.
  - specialize (Hd d eq_refl). unfold read_param_dict in Hd. rewrite Hd.
    eexists. split; [done|]. simpl.
    split; [done|]. split; [done|]. split; [done|].
    intros d' [= <-].
    unfold read_param_dict, deref in *. simpl.
    rewrite lookup_insert_eq.
    destruct (param_dict self1) as [l|] eqn:Hl; [|done]. simpl in *.
    destruct (heap self1 !! l) as [dl|] eqn:Hdl; [|done].
    assert (fresh (dom (heap self1)) ≠ l) as Hne.
    { intros <-. apply (is_fresh (dom (heap self1))).
      apply elem_of_dom. eauto. }
    rewrite lookup_insert_ne by done. rewrite Hdl.
    split; [done|]. split; [done|]. congruence.
  - exists self1. repeat split; done.
Qed.

End FlatParamDict.

Section TypedParamDict.

Context {V : Type}.
Variable class_attributes : gset string.
Import HodModelFactory.
Implicit Types self : instance V.
Implicit Types d current : gmap string V.

Lemma merge_with_app {A} (c : A → result (gmap string V)) l1 l2 : ∀ current,
  merge_with c current (l1 ++ l2) =
  (let! current := merge_with c current l1 in merge_with c current l2).
Proof.
  induction l1 as [|a l1 IH]; intros current; simpl; [done|].
  destruct (c a) as [d|]; simpl; [|done].
  by destruct (elements _).
Qed.

Lemma typed_merge_models (bp : blueprint V) gal_types : ∀ current models,
  typed_models bp gal_types = Ok models →
  typed_merge bp current gal_types =
  merge_with typed_contribution current models.
Proof.
  unfold typed_models.
  induction gal_types as [|g rest IH]; intros current models Hm; simpl in *.
  - by inversion Hm.
  - destruct (gal_type_dict bp g) as [d|]; [|done]. simpl in *.
    destruct (traverse (gal_type_dict bp) rest) as [dicts|]; [|done].
    simpl in *. inversion Hm; subst. simpl.
    rewrite merge_with_app.
    destruct (merge_with typed_contribution current (values d)); simpl; [|done].
    by apply IH.
Qed.

Lemma typed_merge_ok (bp : blueprint V) gal_types : ∀ current d,
  typed_merge bp current gal_types = Ok d →
  ∃ models, typed_models bp gal_types = Ok models ∧
            merge_with typed_contribution current models = Ok d.
Proof.
  unfold typed_models.
  induction gal_types as [|g rest IH]; intros current d Hm; simpl in *.
  - inversion Hm; subst. by exists [].
  - destruct (gal_type_dict bp g) as [d0|]; [|done]. simpl in *.
    destruct (merge_with typed_contribution current (values d0))
      as [current'|] eqn:Hc; [|done]. simpl in Hm.
    destruct (IH _ _ Hm) as (models & Hmodels & Hmerge).
    destruct (traverse (gal_type_dict bp) rest) as [dicts|]; [|done].
    simpl in *. inversion Hmodels; subst.
    eexists. split; [done|]. rewrite merge_with_app, Hc. by simpl.
Qed.

(** Binding a new object under [name] leaves the other attributes. *)
Lemma bind_new_attrs name (o : object V) self :
  attrs (bind_new name o self).1 = <[name := Ref (fresh (dom (objects self)))]> (attrs self).
Proof. done. Qed.

Lemma self_dict_bind_param_dict d self :
  self_dict class_attributes "param_dict" (bind_param_dict d self).1 = Ok d.
Proof.
  unfold self_dict, getattr_self, bind_param_dict, bind_new. simpl.
  rewrite lookup_insert_eq. simpl. by rewrite lookup_insert_eq.
Qed.

Lemma self_blueprint_bind_param_dict d self :
  self_blueprint class_attributes "model_blueprint" (bind_param_dict d self).1 =
  self_blueprint class_attributes "model_blueprint" self.
Proof.
  unfold self_blueprint, getattr_self, bind_param_dict, bind_new. simpl.
  by rewrite lookup_insert_ne.
Qed.

Lemma self_strings_bind_param_dict d self :
  self_strings class_attributes "gal_types" (bind_param_dict d self).1 =
  self_strings class_attributes "gal_types" self.
Proof.
  unfold self_strings, getattr_self, bind_param_dict, bind_new. simpl.
  by rewrite lookup_insert_ne.
Qed.

Lemma model_instance_loop_merge models : ∀ self current,
  self_dict class_attributes "param_dict" self = Ok current →
  ∃ self',
    model_instance_loop class_attributes models self =
      (self', match merge_with typed_contribution current models with
              | Ok _ => Ok ()
              | Raise e => Raise e
              end) ∧
    only_param_dict self self' ∧
    (∀ d, merge_with typed_contribution current models = Ok d →
          self_dict class_attributes "param_dict" self' = Ok d).
Proof.
  induction models as [|m rest IH]; intros self current Hcur.
  - exists self. simpl. repeat split; try done. by intros d [= <-].
  - simpl. unfold sbind, reading. rewrite Hcur.
    unfold typed_contribution at 1 3.
    destruct (getattr "param_dict" (Component.param_dict m)) as [d0|e];
      simpl; [|by exists self].
    destruct (elements (dom current ∩ dom d0)) as [|k l];
      [|by exists self].
    destruct (IH (bind_param_dict (dict (items d0 ++ items current)) self).1
                _ (self_dict_bind_param_dict _ _))
      as (self' & Hloop & Hfr & Hd).
    exists self'. split; [done|]. split; [|done].
    intros name Hname. rewrite (Hfr name Hname).
    unfold bind_param_dict. rewrite bind_new_attrs. by rewrite lookup_insert_ne.
Qed.

Lemma only_param_dict_blueprint self self' :
  only_param_dict self self' →
  self_blueprint class_attributes "model_blueprint" self' =
  self_blueprint class_attributes "model_blueprint" self.
Proof.
  intros H. unfold self_blueprint, getattr_self. by rewrite H.
Qed.

Lemma only_param_dict_strings self self' :
  only_param_dict self self' →
  self_strings class_attributes "gal_types" self' =
  self_strings class_attributes "gal_types" self.
Proof.
  intros H. unfold self_strings, getattr_self. by rewrite H.
Qed.

Lemma param_dict_loop_typed_merge gal_types : ∀ self bp current,
  self_blueprint class_attributes "model_blueprint" self = Ok bp →
  self_dict class_attributes "param_dict" self = Ok current →
  ∃ self',
    param_dict_loop class_attributes gal_types self =
      (self', match typed_merge bp current gal_types with
              | Ok _ => Ok ()
              | Raise e => Raise e
              end) ∧
    only_param_dict self self' ∧
    (∀ d, typed_merge bp current gal_types = Ok d →
          self_dict class_attributes "param_dict" self' = Ok d).
Proof.
  induction gal_types as [|g rest IH]; intros self bp current Hbp Hcur.
  - exists self. simpl. repeat split; try done. by intros d [= <-].
  - simpl. unfold sbind at 1, reading at 1. rewrite Hbp.
    unfold sbind at 1, reading at 1.
    destruct (gal_type_dict bp g) as [gd|e]; simpl; [|by exists self].
    unfold sbind at 1.
    destruct (model_instance_loop_merge (values gd) self current Hcur)
      as (self1 & Hloop & Hfr & Hd).
    rewrite Hloop.
    destruct (merge_with typed_contribution current (values gd))
      as [current'|e]; simpl; [|by exists self1].
    destruct (IH self1 bp current') as (self' & Hloop' & Hfr' & Hd').
    { by rewrite (only_param_dict_blueprint _ _ Hfr). }
    { by apply Hd. }
    exists self'. split; [done|]. split; [|done].
    intros name Hname. by rewrite (Hfr' name Hname), (Hfr name Hname).
Qed.

End TypedParamDict.

Section ParamDictUnion.

Context {V : Type}.

Lemma traverse_Forall2 {A B} (f : A → result B) l : ∀ bs,
  traverse f l = Ok bs → Forall2 (λ a b, f a = Ok b) l bs.
Proof.
  induction l as [|a l IH]; intros bs H; simpl in H.
  - inversion H. constructor.
  - destruct (f a) as [b|] eqn:Hb; [|done].
    destruct (traverse f l) as [bs'|]; [|done].
    inversion H; subst. constructor; [done|by apply IH].
Qed.

Lemma flat_contributions_models (self : SubhaloModelFactory.instance V) galprops :
  ∀ ds, traverse (flat_contribution self) galprops = Ok ds →
  ∃ models,
    traverse (SubhaloModelFactory.blueprint_getitem self) galprops = Ok models ∧
    ds = spec_contribution <$> models.
Proof.
  induction galprops as [|g rest IH]; intros ds H; simpl in H.
  - inversion H. by exists [].
  - unfold flat_contribution at 1 in H.
    simpl. destruct (SubhaloModelFactory.blueprint_getitem self g) as [m|]; [|done].
    simpl in H.
    destruct (SubhaloModelFactory.galprop_model_param_dict m) as [d|] eqn:Hd; [|done].
    destruct (traverse (flat_contribution self) rest) as [ds'|]; [|done].
    inversion H; subst.
    destruct (IH _ eq_refl) as (models & -> & ->).
    exists (m :: models). split; [done|].
    simpl. by rewrite (galprop_model_param_dict_spec _ _ Hd).
Qed.

Lemma flat_contributions_of_models (self : SubhaloModelFactory.instance V) galprops :
  ∀ models,
  traverse (SubhaloModelFactory.blueprint_getitem self) galprops = Ok models →
  Forall (λ m, is_Some (Component.param_dict m) →
               is_Some (Component.galprop_key m)) models →
  traverse (flat_contribution self) galprops = Ok (spec_contribution <$> models).
Proof.
  induction galprops as [|g rest IH]; intros models H Hall; simpl in H.
  - by inversion H.
  - simpl. unfold flat_contribution at 1.
    destruct (SubhaloModelFactory.blueprint_getitem self g) as [m|]; [|done].
    destruct (traverse (SubhaloModelFactory.blueprint_getitem self) rest)
      as [models'|]; [|done].
    inversion H; subst. inversion Hall; subst. simpl.
    rewrite galprop_model_param_dict_ok by done.
    by rewrite (IH _ eq_refl).
Qed.

(** C1, as amended.  In the flat factory [_set_init_param_dict], when it
    returns, leaves in [param_dict] exactly the union of what the namespacing
    rule gives for the component models in the order of evaluation, each
    private key [k] under [<identity>_<k>], a component model without a
    private dictionary contributing nothing; and it does return when no two of
    these contributions share a key and every component model that has a
    private dictionary reports its identity.  In the typed factory, when it
    returns, [param_dict] is the union of the private dictionaries of the
    component models of all galaxy types, with the private keys unchanged. *)
Theorem param_dict_is_union_of_contributions
    (class_attributes : gset string)
    (flat flat' : SubhaloModelFactory.instance V)
    (flat_models : list (component_model V))
    (typed typed' : HodModelFactory.instance V)
    (model_blueprint : HodModelFactory.blueprint V) (gal_types : list string) :
  (SubhaloModelFactory._set_init_param_dict flat = (flat', Ok ()) →
   ∃ models,
     traverse (SubhaloModelFactory.blueprint_getitem flat)
       (SubhaloModelFactory.galprop_list flat) = Ok models ∧
     SubhaloModelFactory.read_param_dict flat' = Ok (spec_param_dict models)) ∧
  (traverse (SubhaloModelFactory.blueprint_getitem flat)
     (SubhaloModelFactory.galprop_list flat) = Ok flat_models →
   Forall (λ m, is_Some (Component.param_dict m) →
                is_Some (Component.galprop_key m)) flat_models →
   (∀ k, ¬ shared_key ∅ (spec_contribution <$> flat_models) k) →
   ∃ self, SubhaloModelFactory._set_init_param_dict flat = (self, Ok ()) ∧
           SubhaloModelFactory.read_param_dict self =
             Ok (spec_param_dict flat_models)) ∧
  (HodModelFactory.self_strings class_attributes "gal_types" typed = Ok gal_types →
   HodModelFactory.self_blueprint class_attributes "model_blueprint" typed =
     Ok model_blueprint →
   HodModelFactory._set_init_param_dict class_attributes typed = (typed', Ok ()) →
   ∃ models ds,
     typed_models model_blueprint gal_types = Ok models ∧
     Forall2 (λ m d, Component.param_dict m = Some d) models ds ∧
     HodModelFactory.self_dict class_attributes "param_dict" typed' = Ok (⋃ ds)).
Proof.
  split; [|split].
  - intros Hrun.
    destruct (_set_init_param_dict_merge flat) as (self' & Hset & _ & _ & _ & Hd).
    rewrite Hrun in Hset.
    destruct (merge_with (flat_contribution flat) ∅
                (SubhaloModelFactory.galprop_list flat)) as [d|e] eqn:Hm;
      [|by inversion Hset].
    inversion Hset; subst self'.
    destruct (Hd d eq_refl) as (Hread & _).
    destruct (merge_with_ok _ _ _ _ Hm) as (ds & Hds & Hmerge).
    destruct (flat_contributions_models _ _ _ Hds) as (models & Hmodels & ->).
    exists models. split; [done|].
    rewrite Hread. f_equal.
    rewrite (merge_union_list _ _ _ Hmerge). by rewrite (left_id_L ∅ (∪)).
  - intros Hmodels Hid Hno.
    destruct (_set_init_param_dict_merge flat) as (self' & Hset & _ & _ & _ & Hd).
    pose proof (flat_contributions_of_models _ _ _ Hmodels Hid) as Hds.
    rewrite (merge_with_traverse _ _ _ _ Hds) in Hset, Hd.
    destruct (merge_no_shared_key _ _ Hno) as [d Hmerge].
    rewrite Hmerge in Hset, Hd.
    exists self'. split; [done|].
    destruct (Hd d eq_refl) as (-> & _). f_equal.
    rewrite (merge_union_list _ _ _ Hmerge). by rewrite (left_id_L ∅ (∪)).
  - intros Hgt Hbp Hrun.
    unfold HodModelFactory._set_init_param_dict in Hrun.
    unfold sbind at 1 in Hrun.
    change (HodModelFactory.bind_param_dict ∅ typed)
      with ((HodModelFactory.bind_param_dict ∅ typed).1, Ok ()) in Hrun.
    cbv beta iota in Hrun.
    unfold sbind at 1, reading at 1 in Hrun.
    rewrite self_strings_bind_param_dict, Hgt in Hrun.
    unfold sbind at 1 in Hrun.
    destruct (param_dict_loop_typed_merge class_attributes gal_types
                (HodModelFactory.bind_param_dict ∅ typed).1 model_blueprint ∅)
      as (self1 & Hloop & Hfr & Hd).
    { by rewrite self_blueprint_bind_param_dict. }
    { apply self_dict_bind_param_dict. }
    rewrite Hloop in Hrun.
    destruct (typed_merge model_blueprint ∅ gal_types) as [d|e] eqn:Hm;
      [|by inversion Hrun].
    unfold sbind at 1, reading at 1 in Hrun.
    rewrite (Hd d eq_refl) in Hrun.
    destruct (typed_merge_ok _ _ _ _ Hm) as (models & Hmodels & Hmerge).
    destruct (merge_with_ok _ _ _ _ Hmerge) as (ds & Hds & Hmerge').
    exists models, ds. split; [done|]. split.
    { apply traverse_Forall2 in Hds.
      eapply Forall2_impl; [exact Hds|].
      intros m d0. unfold typed_contribution, getattr.
      destruct (Component.param_dict m); [|done]. by intros [= ->]. }
    unfold HodModelFactory.bind_new in Hrun. simpl in Hrun.
    inversion Hrun; subst typed'.
    rewrite (merge_union_list _ _ _ Hmerge'), (left_id_L ∅ (∪)).
    pose proof (Hd d eq_refl) as Hself.
    rewrite (merge_union_list _ _ _ Hmerge'), (left_id_L ∅ (∪)) in Hself.
    revert Hself.
    unfold HodModelFactory.self_dict, HodModelFactory.getattr_self,
      HodModelFactory.setattr. simpl.
    rewrite lookup_insert_ne by done.
    destruct (HodModelFactory.attrs self1 !! "param_dict") as [v|]; [|by case_decide].
    simpl. destruct v as [| | | |l| |]; try done.
    destruct (HodModelFactory.objects self1 !! l) as [o|] eqn:Ho; [|done].
    assert (fresh (dom (HodModelFactory.objects self1)) ≠ l) as Hne.
    { intros <-. apply (is_fresh (dom (HodModelFactory.objects self1))).
      apply elem_of_dom. eauto. }
    by rewrite lookup_insert_ne, Ho.
Qed.

End ParamDictUnion.

(** C1, as stated, fails on the typed factory: the private keys of the
    component models of a galaxy type reach [param_dict] as they are. *)
Lemma typed_param_dict_keys_not_namespaced :
  ∃ self d,
    HodModelFactory.construct stable_argsort Examples.class_attributes ∅
      Examples.centrals_blueprint Examples.no_typed_keywords = Ok self ∧
    HodModelFactory.self_dict Examples.class_attributes "param_dict" self = Ok d ∧
    d !! "logMmin" = Some 12%Z ∧
    d ≠ spec_param_dict
          [Examples.occupation_model 1 [("logMmin", 12%Z)];
           Examples.profile_model [("conc_bias", 1%Z)] ["conc"] Examples.no_sample].
Proof.
  eexists _, _. split; [vm_compute; reflexivity|].
  split; [vm_compute; reflexivity|].
  split; [by vm_compute|].
  intros H. apply (f_equal (λ m, m !! "logMmin")) in H.
  vm_compute in H. discriminate.
Qed.

Lemma param_dict_is_union_of_contributions_witness :
  let flat := Examples.flat_ready Examples.flat_blueprint Examples.no_keywords in
  let flat_models :=
    [Examples.galprop_model "stellar_mass" [("slope", 1%Z)] 40%nat;
     Examples.galprop_model_without_params "sfr" 41%nat] in
  let typed := Examples.typed_ready Examples.centrals_blueprint in
  let model_blueprint :=
    Examples.centrals_blueprint ++
      [("mock_factory", HodModelFactory.Callable HodMockFactory)] in
  (∃ models,
     traverse (SubhaloModelFactory.blueprint_getitem flat)
       (SubhaloModelFactory.galprop_list flat) = Ok models ∧
     SubhaloModelFactory.read_param_dict
       (SubhaloModelFactory._set_init_param_dict flat).1 =
     Ok (spec_param_dict models)) ∧
  (∃ self, SubhaloModelFactory._set_init_param_dict flat = (self, Ok ()) ∧
           SubhaloModelFactory.read_param_dict self =
             Ok (spec_param_dict flat_models)) ∧
  (∃ models ds,
     typed_models model_blueprint ["centrals"] = Ok models ∧
     Forall2 (λ m d, Component.param_dict m = Some d) models ds ∧
     HodModelFactory.self_dict Examples.class_attributes "param_dict"
       (HodModelFactory._set_init_param_dict Examples.class_attributes typed).1 =
     Ok (⋃ ds)).
Proof.
  intros flat flat_models typed model_blueprint.
  destruct (param_dict_is_union_of_contributions Examples.class_attributes
              flat (SubhaloModelFactory._set_init_param_dict flat).1
              flat_models
              typed
              (HodModelFactory._set_init_param_dict Examples.class_attributes typed).1
              model_blueprint ["centrals"])
    as (Hflat & Hsuccess & Htyped).
  split; [|split].
  - apply Hflat. vm_compute. reflexivity.
  - apply Hsuccess.
    + vm_compute. reflexivity.
    + repeat constructor; intros _; by eexists.
    + intros k [(j & dj & _ & _ & Hc)|(i & j & di & dj & Hij & _ & Hj & _ & Hkj)].
      * set_solver.
      * destruct j as [|[|j]]; [lia| |done].
        inversion Hj; subst dj. set_solver.
  - apply Htyped; vm_compute; reflexivity.
Defined.

Section SharedKey.

Context {V : Type}.




Variable class_attributes : gset string.



End SharedKey.

Section SharedKeyRaises.

Context {V : Type}.
Variable argsort : list Z → list nat.
Variable class_attributes : gset string.






End SharedKeyRaises.



(** C2: the second call of [restore_init_param_dict] restores nothing.  The
    first call binds [param_dict] to the very dictionary that
    [_init_param_dict] refers to, so that a later [model.param_dict[k] = v]
    changes the snapshot as well; this in both factories. *)
Theorem restore_after_restore_keeps_mutation :
  (∃ model,
     SubhaloModelFactory.construct ∅ Examples.flat_blueprint Examples.no_keywords =
       Ok model ∧
     SubhaloModelFactory.param_dict model ≠ SubhaloModelFactory._init_param_dict model ∧
     SubhaloModelFactory.read_param_dict model = Ok {[ "stellar_mass_slope" := 1%Z ]} ∧
     let after :=
       SubhaloModelFactory.run_actions
         [SubhaloModelFactory.Restore;
          SubhaloModelFactory.Mutate (SetItem "stellar_mass_slope" 2%Z);
          SubhaloModelFactory.Restore] model in
     SubhaloModelFactory.param_dict after = SubhaloModelFactory._init_param_dict after ∧
     SubhaloModelFactory.read_param_dict after = Ok {[ "stellar_mass_slope" := 2%Z ]}) ∧
  (∃ model,
     HodModelFactory.construct stable_argsort Examples.class_attributes ∅
       Examples.centrals_blueprint Examples.no_typed_keywords = Ok model ∧
     HodModelFactory.self_dict Examples.class_attributes "param_dict" model =
       Ok {[ "logMmin" := 12%Z; "conc_bias" := 1%Z ]} ∧
     let after :=
       HodModelFactory.run_actions Examples.class_attributes
         [HodModelFactory.Restore;
          HodModelFactory.Mutate (SetItem "logMmin" 13%Z);
          HodModelFactory.Restore] model in
     HodModelFactory.self_dict Examples.class_attributes "param_dict" after =
       Ok {[ "logMmin" := 13%Z; "conc_bias" := 1%Z ]}).
Proof.
  split.
  - eexists. split; [vm_compute; reflexivity|].
    split; [by vm_compute|]. split; [vm_compute; reflexivity|].
    split; vm_compute; reflexivity.
  - eexists. split; [vm_compute; reflexivity|].
    split; vm_compute; reflexivity.
Qed.

(** C3: [_get_stripped_param_dict] looks the private key [k] of the
    component model in the slot [galprop] up under [galprop_k], whereas
    [_set_init_param_dict] has put it under [<identity>_k].  Where the
    component model of slot [a] reports the identity [x], stripping raises the
    [KeyError] of the missing key [a_p]; where the component models of the
    slots [a] and [b] report the identities [b] and [a], stripping to the slot
    [a] gives the value of the parameter of the other component model. *)
Theorem stripped_param_dict_uses_slot_key :
  (∃ model,
     SubhaloModelFactory.construct ∅ Examples.renamed_blueprint Examples.no_keywords =
       Ok model ∧
     SubhaloModelFactory.read_param_dict model = Ok {[ "x_p" := 1%Z ]} ∧
     (SubhaloModelFactory._get_stripped_param_dict "a" model).2 =
       Raise (KeyError "a_p")) ∧
  (∃ model model' l stripped,
     SubhaloModelFactory.construct ∅ Examples.swapped_identity_blueprint
       Examples.no_keywords = Ok model ∧
     SubhaloModelFactory.read_param_dict model = Ok {[ "b_p" := 1%Z; "a_p" := 2%Z ]} ∧
     SubhaloModelFactory._get_stripped_param_dict "a" model = (model', Ok l) ∧
     SubhaloModelFactory.heap model' !! l = Some stripped ∧
     stripped = {[ "p" := 2%Z ]} ∧
     spec_namespace "b" stripped = {[ "b_p" := 2%Z ]} ∧
     spec_namespace "b" stripped ≠ {[ "b_p" := 1%Z ]}).
Proof.
  split.
  - eexists. split; [vm_compute; reflexivity|].
    split; vm_compute; reflexivity.
  - eexists _, _, _, _. split; [vm_compute; reflexivity|].
    split; [vm_compute; reflexivity|].
    split; [vm_compute; reflexivity|].
    split; [vm_compute; reflexivity|].
    split; [vm_compute; reflexivity|].
    split; [vm_compute; reflexivity|].
    intros H. apply (f_equal (λ m, m !! "b_p")) in H. vm_compute in H. discriminate.
Qed.

(** C5: the local variable [new_haloprop_func_dict] is bound to the list
    [items() + items()] after the first component model that has such a
    dictionary; at the second one the intersection of the pairs of that list
    with the keys of the dictionary is empty whatever the keys are, and
    [items] is not an attribute of a list.  So two component models with the
    keys [f] and [g] make the constructor raise, two with the key [f] make it
    raise the same [AttributeError] and not the [KeyError] that names [f], and
    with one such component model the aggregate is a list of pairs. *)
Theorem halo_prop_func_dicts_never_merge :
  (SubhaloModelFactory.construct ∅ (Examples.funcs_blueprint "f" "g")
     Examples.no_keywords = Raise (AttributeError "items") ∧
   SubhaloModelFactory.construct ∅ (Examples.funcs_blueprint "f" "f")
     Examples.no_keywords = Raise (AttributeError "items") ∧
   HodModelFactory.construct stable_argsort Examples.class_attributes ∅
     (Examples.typed_funcs_blueprint "f" "g") Examples.no_typed_keywords =
     Raise (AttributeError "items") ∧
   HodModelFactory.construct stable_argsort Examples.class_attributes ∅
     (Examples.typed_funcs_blueprint "f" "f") Examples.no_typed_keywords =
     Raise (AttributeError "items")) ∧
  (∃ model,
     SubhaloModelFactory.construct ∅
       [("sfr",
         SubhaloModelFactory.Model
           (Examples.with_funcs [("f", 50%nat)]
              (Examples.galprop_model_without_params "sfr" 41%nat)))]
       Examples.no_keywords = Ok model ∧
     SubhaloModelFactory.new_haloprop_func_dict model = AsItems [("f", 50%nat)]).
Proof.
  split; [repeat split; vm_compute; reflexivity|].
  eexists. split; vm_compute; reflexivity.
Qed.

Section GalpropSequence.

Context {V : Type}.
Import SubhaloModelFactory.
Implicit Types self : instance V.

Lemma unordered_galprop_list_interpret self :
  unordered_galprop_list
    (set_model_blueprint (_interpret_input_model_blueprint self) self) =
  filter (λ key, key ≠ "mock_factory") (keys (_input_model_blueprint self)).
Proof.
  unfold unordered_galprop_list, _interpret_input_model_blueprint. simpl.
  case_decide; [done|].
  unfold keys. rewrite fmap_app, filter_app. simpl.
  rewrite filter_cons_False by (intros H'; by apply H').
  by rewrite filter_nil, app_nil_r.
Qed.

Lemma _set_primary_behaviors_loop_galprop_list galprops : ∀ self,
  galprop_list (_set_primary_behaviors_loop galprops self) = galprop_list self.
Proof.
  induction galprops as [|g rest IH]; intros self; simpl; [done|].
  by rewrite IH.
Qed.

Lemma _build_composite_lists_galprop_list kwargs self galprop_sequence :
  choose_galprop_list kwargs self = Ok galprop_sequence →
  galprop_list (_build_composite_lists kwargs self).1 = galprop_sequence.
Proof.
  intros H. unfold _build_composite_lists. rewrite H.
  by destruct (composite_loop _ _ _).
Qed.

(** Once [_build_composite_lists] has bound [galprop_list], the rest of
    [__init__] leaves it as it is. *)
Lemma __init___galprop_list h (bp : blueprint V) kwargs galprop_sequence :
  (let self := ModelFactory_init h bp kwargs in
   choose_galprop_list kwargs
     (set_model_blueprint (_interpret_input_model_blueprint self) self) =
   Ok galprop_sequence) →
  galprop_list (__init__ h bp kwargs).1 = galprop_sequence.
Proof.
  intros H. unfold __init__, and_then, sbind.
  pose proof (_build_composite_lists_galprop_list kwargs _ _ H) as Hgl.
  destruct (_build_composite_lists kwargs _) as [self1 [[]|e]]; [|done].
  simpl in Hgl.
  destruct (_set_init_param_dict_merge self1) as (self2 & Hset & _ & Hgl2 & _).
  rewrite Hset.
  destruct (merge_with _ _ _); simpl; [|congruence].
  rewrite _set_primary_behaviors_loop_galprop_list. congruence.
Qed.

(** C6, as amended.  With a [galprop_sequence] given, the constructor
    raises the [KeyError] about the sequence when the set of its elements is
    not the set of the slot keys of the blueprint; otherwise the sequence, as
    it is, becomes the order of evaluation [galprop_list] of the instance that
    [__init__] works on: so for every permutation of the slot keys, and so for
    a sequence in which slot keys recur. *)
Theorem galprop_sequence_checked_as_a_set
    (h : gmap loc (gmap string V)) (bp : blueprint V) (kwargs : keyword_args)
    (galprop_sequence : list string) :
  kw_galprop_sequence kwargs = Some galprop_sequence →
  let slot_keys := filter (λ key, key ≠ "mock_factory") (keys bp) in
  (set_of galprop_sequence ≠ set_of slot_keys →
   construct h bp kwargs = Raise (KeyError galprop_sequence_msg)) ∧
  (set_of galprop_sequence = set_of slot_keys →
   galprop_list (__init__ h bp kwargs).1 = galprop_sequence) ∧
  (galprop_sequence ≡ₚ slot_keys →
   galprop_list (__init__ h bp kwargs).1 = galprop_sequence) ∧
  (∀ model, construct h bp kwargs = Ok model →
            galprop_list model = galprop_sequence).
Proof.
  intros Hkw slot_keys.
  assert (∀ self, self = ModelFactory_init h bp kwargs →
            unordered_galprop_list
              (set_model_blueprint (_interpret_input_model_blueprint self) self) =
            slot_keys) as Hkeys.
  { intros self ->. by rewrite unordered_galprop_list_interpret. }
  assert (set_of galprop_sequence = set_of slot_keys →
          galprop_list (__init__ h bp kwargs).1 = galprop_sequence) as Hsame.
  { intros Hset. apply __init___galprop_list. simpl.
    unfold choose_galprop_list. rewrite Hkw, (Hkeys _ eq_refl).
    by case_decide. }
  split; [|split; [done|split]].
  - intros Hne. unfold construct, __init__, and_then, sbind,
      _build_composite_lists, choose_galprop_list.
    rewrite Hkw, (Hkeys _ eq_refl). by case_decide.
  - intros Hperm. apply Hsame. unfold set_of.
    apply set_eq. intros x. rewrite !elem_of_list_to_set. by rewrite Hperm.
  - intros model Hmodel.
    destruct (decide (set_of galprop_sequence = set_of slot_keys)) as [Hset|Hne].
    + specialize (Hsame Hset). unfold construct in Hmodel.
      destruct (__init__ h bp kwargs) as [self [[]|e]]; [|done].
      by inversion Hmodel; subst.
    + exfalso. revert Hmodel.
      unfold construct, __init__, and_then, sbind,
        _build_composite_lists, choose_galprop_list.
      rewrite Hkw, (Hkeys _ eq_refl). by case_decide.
Qed.

End GalpropSequence.

(** C6, as stated, fails for a sequence in which a slot key recurs: the
    set of its elements is the set of the slot keys, the constructor returns,
    and the order of evaluation has the slot [sfr] twice. *)
Lemma repeated_galprop_is_accepted :
  ∃ model,
    SubhaloModelFactory.construct ∅ Examples.plain_blueprint
      (Examples.in_sequence ["sfr"; "stellar_mass"; "sfr"]) = Ok model ∧
    SubhaloModelFactory.galprop_list model = ["sfr"; "stellar_mass"; "sfr"] ∧
    ¬ (["sfr"; "stellar_mass"; "sfr"] ≡ₚ ["stellar_mass"; "sfr"]).
Proof.
  eexists. split; [vm_compute; reflexivity|]. split; [vm_compute; reflexivity|].
  intros H. apply Permutation_length in H. discriminate.
Qed.

Lemma galprop_sequence_checked_as_a_set_witness :
  SubhaloModelFactory.construct ∅ Examples.plain_blueprint
    (Examples.in_sequence ["sfr"]) = Raise (KeyError galprop_sequence_msg) ∧
  SubhaloModelFactory.galprop_list
    (SubhaloModelFactory.__init__ ∅ Examples.plain_blueprint
       (Examples.in_sequence ["sfr"; "stellar_mass"])).1 =
  ["sfr"; "stellar_mass"].
Proof.
  split.
  - destruct (galprop_sequence_checked_as_a_set ∅ Examples.plain_blueprint
                (Examples.in_sequence ["sfr"]) ["sfr"] eq_refl) as (Hne & _).
    apply Hne. simpl. intros H.
    assert ("stellar_mass" ∈ set_of ["sfr"]) as Hin by (rewrite H; set_solver).
    set_solver.
  - destruct (galprop_sequence_checked_as_a_set ∅ Examples.plain_blueprint
                (Examples.in_sequence ["sfr"; "stellar_mass"])
                ["sfr"; "stellar_mass"] eq_refl) as (_ & _ & Hperm & _).
    apply Hperm. simpl. apply Permutation_swap.
Defined.

Section StrippedParamDict.

Context {V : Type}.
Import SubhaloModelFactory.
Implicit Types self : instance V.




End StrippedParamDict.


Section Positions.

Context {V : Type}.
Variable host_haloprop_prefix : string.
Variable class_attributes : gset string.
Import HodModelFactory.

Lemma inplace_same_length op (x a : list float) :
  length a = length x → inplace op x a = Ok (zip_with op x a).
Proof. intros H. unfold inplace. by case_decide. Qed.

(** C9: [mc_pos] takes the three arrays of the position sampler of the
    profile model of the galaxy type and, when they have as many elements as
    the table has rows, returns three arrays of that length whose element of
    row [i] is the sampled coordinate times the boundary radius of the host
    halo of that row divided by 1000, plus the coordinate of the centre of
    that halo; and on the table of one row with radius 200 and centre
    (10, 20, 30), for the sample (0.1, 0, 0), it returns (10.02, 20, 30). *)
Theorem mc_pos_rescales_and_recenters
    (galaxy_table : table) (gal_type : string) (self : instance V)
    (model_blueprint : blueprint V) (gal_prof_model : component_model V)
    (sampler : table → list float * list float * list float)
    (x y z r cx cy cz : list float) (halo_boundary : string) :
  self_blueprint class_attributes "model_blueprint" self = Ok model_blueprint →
  feature model_blueprint gal_type "profile" = Ok gal_prof_model →
  Component.mc_pos gal_prof_model = Some sampler →
  sampler galaxy_table = (x, y, z) →
  Component.halo_boundary gal_prof_model = Some halo_boundary →
  galaxy_table !! (host_haloprop_prefix +:+ halo_boundary) = Some r →
  galaxy_table !! (host_haloprop_prefix +:+ "x") = Some cx →
  galaxy_table !! (host_haloprop_prefix +:+ "y") = Some cy →
  galaxy_table !! (host_haloprop_prefix +:+ "z") = Some cz →
  length x = length r → length y = length r → length z = length r →
  length cx = length r → length cy = length r → length cz = length r →
  (∃ x' y' z',
     mc_pos host_haloprop_prefix class_attributes galaxy_table gal_type self =
       Ok (x', y', z') ∧
     length x' = length r ∧ length y' = length r ∧ length z' = length r ∧
     ∀ i xi yi zi ri cxi cyi czi,
       x !! i = Some xi → y !! i = Some yi → z !! i = Some zi →
       r !! i = Some ri →
       cx !! i = Some cxi → cy !! i = Some cyi → cz !! i = Some czi →
       x' !! i = Some (xi * (ri / 1000) + cxi)%float ∧
       y' !! i = Some (yi * (ri / 1000) + cyi)%float ∧
       z' !! i = Some (zi * (ri / 1000) + czi)%float) ∧
  (∃ model,
     construct stable_argsort Examples.class_attributes ∅
       Examples.one_row_blueprint Examples.no_typed_keywords = Ok model ∧
     mc_pos "halo_" Examples.class_attributes Examples.one_row_table
       "centrals" model =
     Ok ([10.02%float], [20%float], [30%float])).
Proof.
  intros Hbp Hprof Hsampler Hsample Hhb Hr Hcx Hcy Hcz Hx Hy Hz Hlx Hly Hlz.
  split; [|eexists; split; vm_compute; reflexivity].
  unfold mc_pos. rewrite Hbp. simpl. rewrite Hprof. simpl.
  rewrite Hsampler. simpl. rewrite Hsample, Hhb. simpl.
  assert (∀ key col, galaxy_table !! key = Some col →
                     getitem galaxy_table key = Ok col) as Hget.
  { intros key col H. unfold getitem. by rewrite H. }
  rewrite (Hget _ _ Hr), (Hget _ _ Hcx), (Hget _ _ Hcy), (Hget _ _ Hcz).
  unfold bind at 2 4 6.
  rewrite !(inplace_same_length PrimFloat.mul) by (by rewrite length_fmap).
  unfold bind at 1 2 3. unfold bind at 2 4 6.
  rewrite !(inplace_same_length PrimFloat.add)
    by (rewrite length_zip_with, length_fmap; lia).
  unfold bind. eexists _, _, _. split; [done|].
  rewrite !length_zip_with, !length_fmap.
  split; [lia|]. split; [lia|]. split; [lia|].
  intros i xi yi zi ri cxi cyi czi Hxi Hyi Hzi Hri Hcxi Hcyi Hczi.
  rewrite !lookup_zip_with, !list_lookup_fmap.
  rewrite Hxi, Hyi, Hzi, Hri, Hcxi, Hcyi, Hczi. done.
Qed.

End Positions.

Lemma mc_pos_rescales_and_recenters_witness :
  ∃ x' y' z',
    HodModelFactory.mc_pos "halo_" Examples.class_attributes
      Examples.one_row_table "centrals"
      (Examples.typed_ready Examples.one_row_blueprint) = Ok (x', y', z') ∧
    x' !! 0%nat = Some (0.1 * (200 / 1000) + 10)%float ∧
    y' !! 0%nat = Some (0 * (200 / 1000) + 20)%float ∧
    z' !! 0%nat = Some (0 * (200 / 1000) + 30)%float.
Proof.
  destruct (mc_pos_rescales_and_recenters (V:=Z) "halo_" Examples.class_attributes
              Examples.one_row_table "centrals"
              (Examples.typed_ready Examples.one_row_blueprint)
              (Examples.one_row_blueprint ++
                 [("mock_factory", HodModelFactory.Callable HodMockFactory)])
              (Examples.profile_model [] [] ([0.1%float], [0%float], [0%float]))
              (λ _, ([0.1%float], [0%float], [0%float]))
              [0.1%float] [0%float] [0%float] [200%float]
              [10%float] [20%float] [30%float] "rvir")
    as [(x' & y' & z' & Hrun & _ & _ & _ & Hrows) _];
    try (vm_compute; reflexivity).
  exists x', y', z'. split; [exact Hrun|].
  apply (Hrows 0%nat); reflexivity.
Defined.

Section InsertionArgsort.

Variable before : Z → Z → bool.
Hypothesis before_le : ∀ x y, before x y = true → (x ≤ y)%Z.
Hypothesis not_before_le : ∀ x y, before x y = false → (y ≤ x)%Z.







End InsertionArgsort.



Section StableArgsort.

Variable a : list Z.

#[local] Instance by_element_then_index_trans :
  Transitive (by_element_then_index a).
Proof. intros i j k. unfold by_element_then_index. lia. Qed.





End StableArgsort.


Section GalTypes.

Context {V : Type}.
Variable argsort : list Z → list nat.
Variable class_attributes : gset string.
Import HodModelFactory.






End GalTypes.



(** ** The accessors of the profile parameters *)

Section Fallback.

Context {V : Type}.
Variable class_attributes : gset string.
Import HodModelFactory.

Implicit Types self : instance V.

#[local] Instance only_adds_refl : Reflexive (@only_adds V).
Proof. by intros self. Qed.

#[local] Instance only_adds_trans : Transitive (@only_adds V).
Proof.
  intros s1 s2 s3 [Ho1 Ha1] [Ho2 Ha2]. split; [congruence|by etrans].
Qed.

Lemma hasattr_self_false name self :
  hasattr_self class_attributes name self = false →
  attrs self !! name = None ∧ name ∉ class_attributes.
Proof.
  intros H%bool_decide_eq_false. split.
  - apply not_elem_of_dom. tauto.
  - tauto.
Qed.




(** One step of the final pass. *)
Lemma inherit_halo_accessor_only_adds k B self :
  only_adds self (inherit_halo_accessor class_attributes k B self).1.
Proof.
  unfold inherit_halo_accessor.
  destruct (hasattr_self _ _ self) eqn:Hhas; [done|].
  apply hasattr_self_false in Hhas as [Hnone _].
  unfold sbind, reading, changing.
  destruct (getattr_self _ _ self); simpl; [|done].
  split; [done|]. by apply insert_subseteq.
Qed.




(** The loop over the galaxy types, for one profile parameter. *)
Lemma inherit_gal_types_loop_only_adds k gal_types : ∀ self,
  only_adds self (inherit_gal_types_loop class_attributes k gal_types self).1.
Proof.
  induction gal_types as [|B rest IH]; intros self; simpl; [done|].
  unfold sbind at 1.
  pose proof (inherit_halo_accessor_only_adds k B self) as Hstep.
  destruct (inherit_halo_accessor _ k B self) as [self1 [[]|e]]; [|done].
  etrans; [exact Hstep|apply IH].
Qed.




(** The loop over the profile parameters. *)
Lemma inherit_loop_only_adds keys : ∀ self,
  only_adds self (inherit_loop class_attributes keys self).1.
Proof.
  induction keys as [|k rest IH]; intros self; simpl; [done|].
  unfold sbind at 1, reading at 1.
  destruct (self_strings _ _ self) as [gal_types|e]; [|done].
  unfold sbind at 1.
  pose proof (inherit_gal_types_loop_only_adds k gal_types self) as Hstep.
  destruct (inherit_gal_types_loop _ k gal_types self) as [self1 [[]|e]];
    [|done].
  etrans; [exact Hstep|apply IH].
Qed.




End Fallback.


(** ** The flat factory: stripping, restoring, behaviours *)

Section FlatStripping.

Context {V : Type}.
Import SubhaloModelFactory.
Implicit Types self : instance V.
Implicit Types d D out : gmap string V.

Lemma elem_of_items_keys d k : k ∈ (items d).*1 ↔ k ∈ dom d.
Proof.
  unfold items. rewrite elem_of_dom, list_elem_of_fmap. split.
  - intros ([k' v] & -> & Hkv). apply elem_of_map_to_list in Hkv. by exists v.
  - intros [v Hv]. exists (k, v). split; [done|]. by apply elem_of_map_to_list.
Qed.

Lemma stripped_loop_ok self galprop D keys : ∀ out,
  read_param_dict self = Ok D →
  (∀ k, k ∈ keys → is_Some (D !! (galprop +:+ "_" +:+ k))) →
  ∃ out',
    stripped_loop self galprop keys out = Ok out' ∧
    ∀ k, out' !! k =
         if decide (k ∈ keys) then D !! (galprop +:+ "_" +:+ k) else out !! k.
Proof.
  induction keys as [|key rest IH]; intros out HD Hall; cbn [stripped_loop].
  - exists out. split; [done|]. intros k.
    case_decide as Hk; [by inversion Hk|done].
  - pose proof HD as HD'. unfold read_param_dict in HD'. rewrite HD'. simpl.
    destruct (Hall key) as [v Hv]; [left|].
    unfold getitem. rewrite Hv. simpl.
    destruct (IH (<[key := v]> out) HD) as (out' & Hrun & Hout').
    { intros k Hk. apply Hall. by right. }
    exists out'. split; [done|]. intros k. rewrite Hout'.
    destruct (decide (k ∈ rest)) as [Hin|Hnin].
    + rewrite decide_True by (by right). done.
    + destruct (decide (k = key)) as [->|Hne].
      * rewrite decide_True by left. by rewrite lookup_insert_eq.
      * rewrite decide_False by (rewrite elem_of_cons; tauto).
        by rewrite lookup_insert_ne.
Qed.


Lemma _get_stripped_param_dict_ok galprop self m d D :
  blueprint_getitem self galprop = Ok m →
  Component.param_dict m = Some d →
  read_param_dict self = Ok D →
  (∀ k, k ∈ dom d → is_Some (D !! (galprop +:+ "_" +:+ k))) →
  ∃ self' l out,
    _get_stripped_param_dict galprop self = (self', Ok l) ∧
    heap self' !! l = Some out ∧
    ∀ k, out !! k =
         if decide (k ∈ dom d) then D !! (galprop +:+ "_" +:+ k) else None.
Proof.
  intros Hm Hd HD Hall. unfold _get_stripped_param_dict.
  rewrite Hm. simpl. rewrite Hd.
  destruct (stripped_loop_ok self galprop D (items d).*1 ∅ HD)
    as (out & Hrun & Hout).
  { intros k Hk. apply Hall. by apply elem_of_items_keys. }
  rewrite Hrun. simpl. eexists _, _, out. split; [done|]. simpl.
  split; [by rewrite lookup_insert_eq|].
  intros k. rewrite Hout.
  destruct (decide (k ∈ dom d)) as [Hk|Hk].
  - by rewrite decide_True by (by apply elem_of_items_keys).
  - by rewrite decide_False by (by rewrite elem_of_items_keys).
Qed.


Lemma merge_with_contains {A} (c : A → result (gmap string V)) l : ∀ current D a,
  merge_with c current l = Ok D → a ∈ l →
  ∃ da, c a = Ok da ∧ da ⊆ D.
Proof.
  induction l as [|a0 l IH]; intros current D a Hm Ha; simpl in Hm.
  { by inversion Ha. }
  destruct (c a0) as [d0|] eqn:Hc; [|done]. simpl in Hm.
  destruct (elements (dom current ∩ dom d0)) eqn:He; [|done].
  apply elements_nil_disjoint in He. rewrite dict_items_app in Hm.
  apply elem_of_cons in Ha as [->|Ha]; [|by eapply IH].
  exists d0. split; [done|].
  assert (current ∪ d0 ⊆ D) as Hsub.
  { clear -Hm. revert Hm. generalize (current ∪ d0). clear.
    induction l as [|a l IH]; intros cur Hm; simpl in Hm.
    - by inversion Hm.
    - destruct (c a) as [d|]; [|done]. simpl in Hm.
      destruct (elements (dom cur ∩ dom d)) eqn:He; [|done].
      rewrite dict_items_app in Hm. etrans; [|by apply IH].
      apply map_union_subseteq_l. }
  etrans; [|exact Hsub]. by apply map_union_subseteq_r.
Qed.

(** X2.  After [_set_init_param_dict], stripping to a slot whose component model
    reports the key of the slot as its identity gives back the private
    dictionary of that component model. *)
Theorem strip_gives_back_private_dict_of_own_slot self self' galprop m d :
  _set_init_param_dict self = (self', Ok ()) →
  galprop ∈ galprop_list self →
  blueprint_getitem self galprop = Ok m →
  Component.galprop_key m = Some galprop →
  Component.param_dict m = Some d →
  ∃ self'' l,
    _get_stripped_param_dict galprop self' = (self'', Ok l) ∧
    heap self'' !! l = Some d.
Proof.
  intros Hrun Hin Hm Hid Hd.
  destruct (_set_init_param_dict_merge self) as (self0 & Hset & Hbp & _ & _ & HD).
  rewrite Hrun in Hset.
  destruct (merge_with (flat_contribution self) ∅ (galprop_list self))
    as [D|e] eqn:Hmerge; [|by inversion Hset].
  inversion Hset; subst self0. clear Hset.
  destruct (HD D eq_refl) as (Hread & _).
  destruct (merge_with_contains _ _ _ _ _ Hmerge Hin) as (da & Hc & Hsub).
  unfold flat_contribution in Hc. rewrite Hm in Hc. simpl in Hc.
  apply galprop_model_param_dict_spec in Hc. subst da.
  unfold spec_contribution in Hsub. rewrite Hd, Hid in Hsub.
  assert (∀ k v, d !! k = Some v → D !! (galprop +:+ "_" +:+ k) = Some v) as HDk.
  { intros k v Hk. eapply lookup_weaken; [|exact Hsub].
    apply spec_namespace_lookup. by exists k. }
  destruct (_get_stripped_param_dict_ok galprop self' m d D)
    as (self'' & l & out & Hstrip & Hl & Hout); [| done | done | |].
  - unfold blueprint_getitem in *. by rewrite Hbp.
  - intros k [v Hk]%elem_of_dom. rewrite (HDk k v Hk). by eexists.
  - exists self'', l. split; [done|]. rewrite Hl. f_equal.
    apply map_eq. intros k. rewrite Hout.
    destruct (decide (k ∈ dom d)) as [Hk|Hk].
    + apply elem_of_dom in Hk as [v Hk]. by rewrite (HDk k v Hk).
    + symmetry. by apply not_elem_of_dom.
Qed.

End FlatStripping.

Section FlatRestoring.

Context {V : Type}.
Import SubhaloModelFactory.
Implicit Types self : instance V.

Lemma _set_primary_behaviors_loop_frame galprops : ∀ self,
  let self' := _set_primary_behaviors_loop galprops self in
  heap self' = heap self ∧ param_dict self' = param_dict self ∧
  _init_param_dict self' = _init_param_dict self ∧
  model_blueprint self' = model_blueprint self.
Proof.
  induction galprops as [|g rest IH]; intros self; simpl; [done|].
  destruct (IH (set_bound (<[ "mc_" +:+ g := g ]> (bound self)) self))
    as (-> & -> & -> & ->).
  done.
Qed.

(** The mutations of [model.param_dict] reach the dictionary object of
    [param_dict] only. *)
Lemma mutations_keep_snapshot (ops : list (mutation V)) : ∀ self l l0 d0,
  param_dict self = Some l → _init_param_dict self = Some l0 → l ≠ l0 →
  heap self !! l0 = Some d0 →
  let self' := run_actions (Mutate <$> ops) self in
  param_dict self' = Some l ∧ _init_param_dict self' = Some l0 ∧
  heap self' !! l0 = Some d0.
Proof.
  induction ops as [|op ops IH]; intros self l l0 d0 Hl Hl0 Hne Hd0; simpl;
    [done|].
  apply IH; try done.
  - unfold mutate_param_dict. by rewrite Hl.
  - unfold mutate_param_dict. by rewrite Hl.
  - unfold mutate_param_dict. rewrite Hl. simpl. unfold mutate_at.
    destruct (heap self !! l); [|done]. by rewrite lookup_insert_ne.
Qed.

Lemma restore_reads_snapshot self l0 d0 :
  _init_param_dict self = Some l0 → heap self !! l0 = Some d0 →
  read_param_dict (restore_init_param_dict self).1 = Ok d0.
Proof.
  intros Hl0 Hd0. unfold restore_init_param_dict. rewrite Hl0.
  unfold getattr, _set_primary_behaviors. cbn [fst].
  unfold read_param_dict, deref.
  destruct (_set_primary_behaviors_loop_frame
              (galprop_list (set_param_dict (Some l0) self))
              (set_param_dict (Some l0) self))
    as (Hheap & Hp & _).
  rewrite Hheap, Hp. simpl. by rewrite Hd0.
Qed.

(** X3.  The first call of [restore_init_param_dict] on a model, whatever has been
    done to [model.param_dict] since the construction, leaves [param_dict]
    with the items it had when the constructor returned. *)
Theorem first_restore_resets_param_dict
    (h : gmap loc (gmap string V)) (bp : blueprint V) (kwargs : keyword_args)
    (model : instance V) :
  construct h bp kwargs = Ok model →
  ∃ d,
    read_param_dict model = Ok d ∧
    ∀ ops : list (mutation V),
      read_param_dict (run_actions ((Mutate <$> ops) ++ [Restore]) model) = Ok d.
Proof.
  unfold construct, __init__, and_then. intros Hmodel.
  unfold sbind at 1 in Hmodel. unfold sbind at 1 in Hmodel.
  destruct (_build_composite_lists kwargs _) as [self1 [[]|e]]; [|done].
  destruct (_set_init_param_dict_merge self1) as (self2 & Hset & _ & _ & _ & HD).
  rewrite Hset in Hmodel.
  destruct (merge_with (flat_contribution self1) ∅ (galprop_list self1))
    as [d|e] eqn:Hmerge; [|done].
  destruct (HD d eq_refl) as (Hread & Hinit & Hne).
  unfold _set_primary_behaviors in Hmodel. inversion Hmodel; subst model.
  clear Hmodel.
  destruct (_set_primary_behaviors_loop_frame (galprop_list self2) self2)
    as (Hheap & Hp & Hi & _).
  set (model := _set_primary_behaviors_loop (galprop_list self2) self2) in *.
  unfold read_param_dict, deref in Hread, Hinit.
  rewrite <- Hp, <- Hi in Hne. rewrite <- Hp, <- Hheap in Hread.
  rewrite <- Hi, <- Hheap in Hinit.
  destruct (param_dict model) as [l|] eqn:Hl; [|done].
  destruct (_init_param_dict model) as [l0|] eqn:Hl0; [|done].
  simpl in Hread, Hinit.
  destruct (heap model !! l0) as [d0|] eqn:Hd0; [|done].
  inversion Hinit; subst d0.
  exists d. split.
  { unfold read_param_dict, deref. by rewrite Hl. }
  intros ops. unfold run_actions. rewrite foldl_app. simpl.
  destruct (mutations_keep_snapshot ops model l l0 d Hl Hl0 ltac:(congruence) Hd0)
    as (_ & Hl0' & Hd0').
  unfold run_actions in Hl0', Hd0'.
  by apply restore_reads_snapshot with l0.
Qed.

End FlatRestoring.

Section FlatBehaviors.

Context {V : Type}.
Import SubhaloModelFactory.
Implicit Types self : instance V.

Lemma _set_primary_behaviors_loop_other galprops name : ∀ self,
  (∀ galprop, galprop ∈ galprops → name ≠ "mc_" +:+ galprop) →
  bound (_set_primary_behaviors_loop galprops self) !! name = bound self !! name.
Proof.
  induction galprops as [|g rest IH]; intros self Hname; simpl; [done|].
  rewrite IH by (intros g' Hg'; apply Hname; by right). simpl.
  apply lookup_insert_ne. intros Heq. by apply (Hname g); [left|].
Qed.

Lemma _set_primary_behaviors_loop_bound galprops galprop : ∀ self,
  galprop ∈ galprops →
  bound (_set_primary_behaviors_loop galprops self) !! ("mc_" +:+ galprop) =
  Some galprop.
Proof.
  induction galprops as [|g rest IH]; intros self Hin; simpl.
  { by inversion Hin. }
  destruct (decide (galprop ∈ rest)) as [Hrest|Hrest]; [by apply IH|].
  apply elem_of_cons in Hin as [->|Hin]; [|done].
  rewrite _set_primary_behaviors_loop_other.
  - simpl. by rewrite lookup_insert_eq.
  - intros g' Hg' Heq. apply String.app_inj in Heq. by subst.
Qed.

(** X5.  [_set_primary_behaviors] never raises; it binds, for every galprop of
    [galprop_list], the name [mc_<galprop>] to the behaviour of that galprop,
    and leaves every other name, the dictionaries and the blueprint as they
    are. *)
Theorem flat_behaviors_are_named_by_galprop self :
  ∃ self',
    _set_primary_behaviors self = (self', Ok ()) ∧
    (∀ galprop, galprop ∈ galprop_list self →
       bound self' !! ("mc_" +:+ galprop) = Some galprop) ∧
    (∀ name, (∀ galprop, galprop ∈ galprop_list self → name ≠ "mc_" +:+ galprop) →
       bound self' !! name = bound self !! name) ∧
    heap self' = heap self ∧ param_dict self' = param_dict self ∧
    _init_param_dict self' = _init_param_dict self ∧
    model_blueprint self' = model_blueprint self ∧
    galprop_list self' = galprop_list self.
Proof.
  eexists. split; [done|].
  split; [intros g Hg; by apply _set_primary_behaviors_loop_bound|].
  split; [intros name Hname; by apply _set_primary_behaviors_loop_other|].
  destruct (_set_primary_behaviors_loop_frame (galprop_list self) self)
    as (-> & -> & -> & ->).
  by rewrite _set_primary_behaviors_loop_galprop_list.
Qed.

End FlatBehaviors.

(** ** The bookkeeping lists of the composite model *)

Section CompositeLists.

Context {V : Type}.
Implicit Types m : component_model V.

Lemma elem_of_add_haloprop_keys m l key :
  key ∈ add_haloprop_keys m l ↔
  key ∈ l ∨ Component.prim_haloprop_key m = Some key ∨
  Component.sec_haloprop_key m = Some key.
Proof.
  unfold add_haloprop_keys.
  destruct (Component.prim_haloprop_key m) as [k1|],
    (Component.sec_haloprop_key m) as [k2|];
    rewrite ?elem_of_app, ?list_elem_of_singleton;
    intuition (subst; auto; congruence).
Qed.

Lemma elem_of_add_publications m l pub :
  pub ∈ add_publications m l ↔
  pub ∈ l ∨ ∃ pubs, Component.publications m = Some pubs ∧ pub ∈ pubs.
Proof.
  unfold add_publications.
  destruct (Component.publications m) as [pubs|]; rewrite ?elem_of_app.
  - split; [intros [?|?]; [by left|right; by exists pubs]|].
    intros [?|(pubs' & [= <-] & ?)]; [by left|by right].
  - split; [by left|]. by intros [?|(? & ? & _)].
Qed.

Lemma elem_of_add_prof_param_keys m l key :
  key ∈ HodModelFactory.add_prof_param_keys m l ↔
  key ∈ l ∨ ∃ keys, Component.prof_param_keys m = Some keys ∧ key ∈ keys.
Proof.
  unfold HodModelFactory.add_prof_param_keys.
  destruct (Component.prof_param_keys m) as [keys|]; rewrite ?elem_of_app.
  - split; [intros [?|?]; [by left|right; by exists keys]|].
    intros [?|(keys' & [= <-] & ?)]; [by left|by right].
  - split; [by left|]. by intros [?|(? & ? & _)].
Qed.

(** A list of pairs never shares an element with the keys of a dictionary:
    once [new_haloprop_func_dict] is a list, the next component model that
    has such a dictionary makes [items] fail. *)
Lemma add_func_dict_items m (l : list (string * func)) :
  add_func_dict m (AsItems l) =
  match Component.new_haloprop_func_dict m with
  | Some _ => Raise (AttributeError "items")
  | None => Ok (AsItems l)
  end.
Proof.
  unfold add_func_dict.
  destruct (Component.new_haloprop_func_dict m) as [d|]; [|done].
  assert (func_dict_set (AsItems l) ∩ func_dict_set (AsDict d) = ∅) as ->.
  { apply set_eq. intros x. unfold func_dict_set.
    rewrite elem_of_intersection, !elem_of_list_to_set, !list_elem_of_fmap.
    split; [|by intros ?%not_elem_of_empty].
    intros [(p & -> & _) (k & Hk & _)]. done. }
  by rewrite elements_empty.
Qed.

Lemma add_func_dict_empty m :
  add_func_dict m (AsDict ∅) =
  match Component.new_haloprop_func_dict m with
  | Some d => Ok (AsItems (items d))
  | None => Ok (AsDict ∅)
  end.
Proof.
  unfold add_func_dict.
  destruct (Component.new_haloprop_func_dict m) as [d|]; [|done].
  assert (func_dict_set (AsDict ∅) ∩ func_dict_set (AsDict d) = ∅) as ->.
  { apply set_eq. intros x. unfold func_dict_set, items.
    rewrite map_to_list_empty. set_solver. }
  rewrite elements_empty. simpl. unfold items. by rewrite map_to_list_empty.
Qed.

End CompositeLists.

Section FlatCompositeLists.

Context {V : Type}.
Import SubhaloModelFactory.
Implicit Types self : instance V.

Lemma composite_loop_lists self galprops : ∀ acc acc',
  composite_loop self galprops acc = Ok acc' →
  (∀ key, key ∈ haloprop_list acc' ↔
     key ∈ haloprop_list acc ∨
     ∃ galprop m, galprop ∈ galprops ∧ blueprint_getitem self galprop = Ok m ∧
       (Component.prim_haloprop_key m = Some key ∨
        Component.sec_haloprop_key m = Some key)) ∧
  (∀ pub, pub ∈ pub_list acc' ↔
     pub ∈ pub_list acc ∨
     ∃ galprop m pubs, galprop ∈ galprops ∧
       blueprint_getitem self galprop = Ok m ∧
       Component.publications m = Some pubs ∧ pub ∈ pubs).
Proof.
  induction galprops as [|g rest IH]; intros acc acc' Hrun; simpl in Hrun.
  - inversion Hrun; subst. split; intros x; split; try tauto.
    + intros [?|(? & ? & Hin & _)]; [done|by inversion Hin].
    + intros [?|(? & ? & ? & Hin & _)]; [done|by inversion Hin].
  - destruct (blueprint_getitem self g) as [m|] eqn:Hm; [|done]. simpl in Hrun.
    destruct (add_func_dict m (func_dict_acc acc)) as [fd|]; [|done].
    simpl in Hrun. destruct (IH _ _ Hrun) as [Hkeys Hpubs]. simpl in *.
    split; intros x.
    + rewrite Hkeys, elem_of_add_haloprop_keys. split.
      * intros [[?|?]|(g' & m' & ? & ? & ?)]; [by left| |].
        -- right. exists g, m. split; [left|done].
        -- right. exists g', m'. split; [by right|done].
      * intros [?|(g' & m' & [->|?]%elem_of_cons & Hm' & ?)]; [by left; left| |].
        -- rewrite Hm in Hm'. inversion Hm'; subst. by left; right.
        -- right. by exists g', m'.
    + rewrite Hpubs, elem_of_add_publications. split.
      * intros [[?|(pubs & ? & ?)]|(g' & m' & pubs & ? & ? & ? & ?)]; [by left| |].
        -- right. exists g, m, pubs. split; [left|done].
        -- right. exists g', m', pubs. split; [by right|done].
      * intros [?|(g' & m' & pubs & [->|?]%elem_of_cons & Hm' & ? & ?)];
          [by left; left| |].
        -- rewrite Hm in Hm'. inversion Hm'; subst. left; right. by exists pubs.
        -- right. by exists g', m', pubs.
Qed.

(** X7.  When [_build_composite_lists] returns, [_haloprop_list] and
    [publications] have no element twice, and hold exactly the halo property
    keys and the references of the component models of [galprop_list]. *)
Theorem flat_composite_lists_are_unions_without_repeats kwargs self self' :
  _build_composite_lists kwargs self = (self', Ok ()) →
  NoDup (_haloprop_list self') ∧ NoDup (publications self') ∧
  (∀ key, key ∈ _haloprop_list self' ↔
     ∃ galprop m, galprop ∈ galprop_list self' ∧
       blueprint_getitem self galprop = Ok m ∧
       (Component.prim_haloprop_key m = Some key ∨
        Component.sec_haloprop_key m = Some key)) ∧
  (∀ pub, pub ∈ publications self' ↔
     ∃ galprop m pubs, galprop ∈ galprop_list self' ∧
       blueprint_getitem self galprop = Ok m ∧
       Component.publications m = Some pubs ∧ pub ∈ pubs).
Proof.
  unfold _build_composite_lists.
  destruct (choose_galprop_list kwargs self) as [gl|]; [|by inversion 1].
  destruct (composite_loop _ _ _) as [acc|] eqn:Hloop; [|by inversion 1].
  intros [= <-]. simpl.
  destruct (composite_loop_lists _ _ _ _ Hloop) as [Hkeys Hpubs].
  split; [apply NoDup_elements|]. split; [apply NoDup_elements|].
  unfold set_of. split; intros x.
  - rewrite elem_of_elements, elem_of_list_to_set, Hkeys. simpl.
    split; [intros [Hnil|?]; [by inversion Hnil|done]|by right].
  - rewrite elem_of_elements, elem_of_list_to_set, Hpubs. simpl.
    split; [intros [Hnil|?]; [by inversion Hnil|done]|by right].
Qed.

Lemma assoc_is_Some {A} (l : list (string * A)) k :
  k ∈ keys l → is_Some (assoc l k).
Proof.
  unfold keys. induction l as [|[k' a] l IH]; simpl.
  { by inversion 1. }
  intros [->|Hin]%elem_of_cons.
  - rewrite decide_True by done. by eexists.
  - case_decide; [by eexists|by apply IH].
Qed.

Lemma assoc_app {A} (l1 l2 : list (string * A)) k :
  assoc (l1 ++ l2) k =
  match assoc l1 k with Some a => Some a | None => assoc l2 k end.
Proof.
  induction l1 as [|[k' a] l1 IH]; simpl; [done|]. by case_decide.
Qed.

Lemma assoc_None {A} (l : list (string * A)) k :
  k ∉ keys l → assoc l k = None.
Proof.
  unfold keys. induction l as [|[k' a] l IH]; simpl; [done|].
  intros Hnin. rewrite not_elem_of_cons in Hnin. destruct Hnin as [Hne Hnin].
  rewrite decide_False by done. by apply IH.
Qed.

(** Every galprop of the order of evaluation is a slot of the blueprint. *)
Lemma choose_galprop_list_slots kwargs self gl galprop :
  choose_galprop_list kwargs self = Ok gl → galprop ∈ gl →
  ∃ m, blueprint_getitem self galprop = Ok m.
Proof.
  intros Hgl Hin.
  assert (galprop ∈ unordered_galprop_list self) as Hslot.
  { unfold choose_galprop_list in Hgl.
    destruct (kw_galprop_sequence kwargs) as [seq|].
    - case_decide as Hset; [done|]. inversion Hgl; subst.
      unfold set_of in Hset.
      apply (elem_of_list_to_set (C:=gset string)). rewrite <- Hset.
      by apply elem_of_list_to_set.
    - by inversion Hgl; subst. }
  unfold unordered_galprop_list in Hslot.
  apply list_elem_of_filter in Hslot as [_ Hkey].
  destruct (assoc_is_Some _ _ Hkey) as [v Hv].
  unfold blueprint_getitem. rewrite Hv. by eexists.
Qed.

Lemma composite_loop_items self galprops : ∀ acc l,
  func_dict_acc acc = AsItems l →
  (∀ galprop, galprop ∈ galprops → ∃ m, blueprint_getitem self galprop = Ok m) →
  (∃ galprop m, galprop ∈ galprops ∧ blueprint_getitem self galprop = Ok m ∧
     is_Some (Component.new_haloprop_func_dict m)) →
  composite_loop self galprops acc = Raise (AttributeError "items").
Proof.
  induction galprops as [|g rest IH]; intros acc l Hacc Hslots Hdict; simpl.
  { destruct Hdict as (? & ? & Hin & _). by inversion Hin. }
  destruct (Hslots g) as [m Hm]; [left|]. rewrite Hm. simpl.
  rewrite Hacc, add_func_dict_items.
  destruct (Component.new_haloprop_func_dict m) as [d|] eqn:Hd; [done|].
  simpl. eapply IH; [done| |].
  - intros g' Hg'. apply Hslots. by right.
  - destruct Hdict as (g' & m' & [->|Hin]%elem_of_cons & Hm' & Hsome).
    + rewrite Hm in Hm'. inversion Hm'; subst. rewrite Hd in Hsome.
      by destruct Hsome.
    + by exists g', m'.
Qed.

Lemma composite_loop_two_dicts self galprops : ∀ acc i j gi gj mi mj,
  func_dict_acc acc = AsDict ∅ →
  (∀ galprop, galprop ∈ galprops → ∃ m, blueprint_getitem self galprop = Ok m) →
  (i < j)%nat → galprops !! i = Some gi → galprops !! j = Some gj →
  blueprint_getitem self gi = Ok mi → blueprint_getitem self gj = Ok mj →
  is_Some (Component.new_haloprop_func_dict mi) →
  is_Some (Component.new_haloprop_func_dict mj) →
  composite_loop self galprops acc = Raise (AttributeError "items").
Proof.
  induction galprops as [|g rest IH];
    intros acc i j gi gj mi mj Hacc Hslots Hij Hi Hj Hmi Hmj Hdi Hdj; simpl.
  { done. }
  destruct (Hslots g) as [m Hm]; [left|]. rewrite Hm. simpl.
  rewrite Hacc, add_func_dict_empty.
  destruct j as [|j]; [lia|]. simpl in Hj.
  destruct (Component.new_haloprop_func_dict m) as [d|] eqn:Hd; simpl.
  - eapply composite_loop_items; [done| |].
    + intros g' Hg'. apply Hslots. by right.
    + exists gj, mj. split; [|done]. by eapply list_elem_of_lookup_2.
  - destruct i as [|i]; simpl in Hi.
    + inversion Hi; subst. rewrite Hm in Hmi. inversion Hmi; subst.
      rewrite Hd in Hdi. by destruct Hdi.
    + eapply (IH _ i j gi gj mi mj); try done; [|lia].
      intros g' Hg'. apply Hslots. by right.
Qed.

(** X8.  Whenever two component models of the order of evaluation have a
    [new_haloprop_func_dict], whatever the keys, the constructor raises the
    [AttributeError] of [items]: no blueprint with two such component models
    can be built. *)
Theorem two_func_dicts_make_the_constructor_raise
    (h : gmap loc (gmap string V)) (bp : blueprint V) (kwargs : keyword_args)
    (gl : list string) (i j : nat) (gi gj : string) (mi mj : component_model V) :
  let self := ModelFactory_init h bp kwargs in
  let self := set_model_blueprint (_interpret_input_model_blueprint self) self in
  choose_galprop_list kwargs self = Ok gl →
  (i < j)%nat → gl !! i = Some gi → gl !! j = Some gj →
  blueprint_getitem self gi = Ok mi → blueprint_getitem self gj = Ok mj →
  is_Some (Component.new_haloprop_func_dict mi) →
  is_Some (Component.new_haloprop_func_dict mj) →
  construct h bp kwargs = Raise (AttributeError "items").
Proof.
  intros self0 self Hgl Hij Hi Hj Hmi Hmj Hdi Hdj.
  unfold construct, __init__, and_then. fold self0. fold self.
  unfold sbind at 1. unfold sbind at 1.
  unfold _build_composite_lists. rewrite Hgl.
  change (galprop_list (set_galprop_list gl self)) with gl.
  rewrite (composite_loop_two_dicts (set_galprop_list gl self) gl no_lists
             i j gi gj mi mj); try done.
  intros g Hg. by eapply choose_galprop_list_slots.
Qed.


End FlatCompositeLists.

Section FlatAliasing.

Context {V : Type}.
Import SubhaloModelFactory.
Implicit Types self : instance V.

(** X4.  [restore_init_param_dict] binds [param_dict] to the dictionary object of
    [_init_param_dict] itself: from then on every change of
    [model.param_dict] is a change of the snapshot as well. *)
Theorem restore_makes_param_dict_the_snapshot_itself self self' d :
  restore_init_param_dict self = (self', Ok ()) →
  read_param_dict self' = Ok d →
  param_dict self' = _init_param_dict self' ∧
  ∀ op : mutation V,
    let changed := mutate_param_dict op self' in
    read_param_dict changed = Ok (mutate op d) ∧
    deref "_init_param_dict" (_init_param_dict changed) changed =
      Ok (mutate op d).
Proof.
  unfold restore_init_param_dict.
  destruct (_init_param_dict self) as [l0|] eqn:Hl0; [|by inversion 1].
  unfold getattr, _set_primary_behaviors. intros [= <-].
  destruct (_set_primary_behaviors_loop_frame
              (galprop_list (set_param_dict (Some l0) self))
              (set_param_dict (Some l0) self))
    as (Hheap & Hp & Hi & _).
  set (self' := _set_primary_behaviors_loop _ _) in *.
  simpl in Hheap, Hp, Hi. rewrite Hl0 in Hi.
  unfold read_param_dict, deref. rewrite Hp, Hi, Hheap. simpl.
  destruct (heap self !! l0) as [d0|] eqn:Hd0; [|done].
  intros [= ->]. split; [done|]. intros op.
  unfold mutate_param_dict. rewrite Hp. simpl. rewrite Hp, Hi. simpl.
  unfold mutate_at. rewrite Hheap, Hd0. by rewrite lookup_insert_eq.
Qed.


(** X10.  The flat factory reads [galprop_key] of a component model once for
    every item of its [param_dict]: a component model without this attribute
    passes when its [param_dict] is empty, and otherwise, when it is the
    first that fails, makes [_set_init_param_dict] raise the
    [AttributeError] of [galprop_key]. *)
Theorem flat_component_without_identity_raises
    self before galprop after (m : component_model V) d d0 :
  galprop_list self = before ++ galprop :: after →
  merge_with (flat_contribution self) ∅ before = Ok d0 →
  blueprint_getitem self galprop = Ok m →
  Component.galprop_key m = None →
  Component.param_dict m = Some d →
  (d ≠ ∅ →
   (_set_init_param_dict self).2 = Raise (AttributeError "galprop_key")) ∧
  (d = ∅ → flat_contribution self galprop = Ok ∅).
Proof.
  intros Hgl Hbefore Hm Hid Hd.
  assert (flat_contribution self galprop =
          if decide (d = ∅) then Ok ∅ else Raise (AttributeError "galprop_key"))
    as Hc.
  { unfold flat_contribution. rewrite Hm. simpl.
    unfold galprop_model_param_dict. rewrite Hd. unfold items.
    destruct (map_to_list d) as [|[k v] l] eqn:Hl.
    - apply map_to_list_empty_iff in Hl. by rewrite decide_True.
    - rewrite decide_False.
      + simpl. unfold namespaced_item at 1. by rewrite Hid.
      + intros ->. by rewrite map_to_list_empty in Hl. }
  split.
  - intros Hne.
    destruct (_set_init_param_dict_merge self) as (self' & -> & _).
    rewrite Hgl, merge_with_app, Hbefore. simpl.
    rewrite Hc, decide_False by done. done.
  - intros ->. by rewrite Hc, decide_True.
Qed.

End FlatAliasing.

Lemma restore_makes_param_dict_the_snapshot_itself_witness :
  let model :=
    (SubhaloModelFactory.__init__ ∅ Examples.flat_blueprint
       Examples.no_keywords).1 in
  let restored := (SubhaloModelFactory.restore_init_param_dict model).1 in
  let changed :=
    SubhaloModelFactory.mutate_param_dict (SetItem "stellar_mass_slope" 2%Z)
      restored in
  SubhaloModelFactory.deref "_init_param_dict"
    (SubhaloModelFactory._init_param_dict changed) changed =
    Ok (mutate (SetItem "stellar_mass_slope" 2%Z) {[ "stellar_mass_slope" := 1%Z ]}).
Proof.
  intros model restored changed.
  destruct (restore_makes_param_dict_the_snapshot_itself model restored
              {[ "stellar_mass_slope" := 1%Z ]}) as [_ Hop].
  - vm_compute. reflexivity.
  - vm_compute. reflexivity.
  - apply (Hop (SetItem "stellar_mass_slope" 2%Z)).
Defined.


Lemma flat_component_without_identity_raises_witness :
  let nameless : component_model Z :=
    {| Component.galprop_key := None;
       Component.param_dict := Some {[ "slope" := 1%Z ]};
       Component.prim_haloprop_key := None;
       Component.sec_haloprop_key := None;
       Component.publications := None;
       Component.new_haloprop_func_dict := None;
       Component.prof_param_keys := None;
       Component.occupation_bound := None;
       Component.halo_boundary := None;
       Component.halo_prof_model := None;
       Component.mc_pos := None;
       Component.methods := ∅ |} in
  let self :=
    Examples.flat_ready [("sfr", SubhaloModelFactory.Model nameless)]
      Examples.no_keywords in
  (SubhaloModelFactory._set_init_param_dict self).2 =
    Raise (AttributeError "galprop_key").
Proof.
  intros nameless self.
  destruct (flat_component_without_identity_raises self [] "sfr" [] nameless
              {[ "slope" := 1%Z ]} ∅) as [Hraise _].
  - vm_compute. reflexivity.
  - reflexivity.
  - vm_compute. reflexivity.
  - reflexivity.
  - reflexivity.
  - apply Hraise. intros Hempty.
    apply (f_equal (λ d : gmap string Z, d !! "slope")) in Hempty.
    vm_compute in Hempty. discriminate Hempty.
Defined.

(** ** The typed factory: galaxy types, parameters, lists *)

Section Traversals.

Lemma traverse_app_raise {A B} (f : A → result B) before a after e :
  Forall (λ a', ∃ b, f a' = Ok b) before → f a = Raise e →
  traverse f (before ++ a :: after) = Raise e.
Proof.
  intros Hbefore Ha. induction Hbefore as [|a' before [b Hb] _ IH]; simpl.
  - by rewrite Ha.
  - by rewrite Hb, IH.
Qed.

Lemma traverse_ok {A B} (f : A → result B) l :
  Forall (λ a, ∃ b, f a = Ok b) l → ∃ bs, traverse f l = Ok bs.
Proof.
  induction 1 as [|a l [b Hb] _ [bs IH]]; simpl; [by eexists|].
  rewrite Hb, IH. by eexists.
Qed.

Lemma sbind_Ok {S A B} (m : stateful S A) (k : A → stateful S B) s s' b :
  sbind m k s = (s', Ok b) → ∃ s1 a, m s = (s1, Ok a) ∧ k a s1 = (s', Ok b).
Proof.
  unfold sbind. destruct (m s) as [s1 [a|e]]; [|by inversion 1].
  intros H. by exists s1, a.
Qed.

End Traversals.

Section TypedGalTypes.

Context {V : Type}.
Variable argsort : list Z → list nat.
Variable class_attributes : gset string.
Import HodModelFactory.
Implicit Types self : instance V.

Lemma occupation_bound_loop_spec (bp : blueprint V) gal_types : ∀ acc d,
  occupation_bound_loop bp gal_types acc = Ok d →
  ∀ g b, d !! g = Some b ↔
    (g ∈ gal_types ∧ occupation_bound_of bp g = Ok b) ∨
    ((g ∉ gal_types) ∧ acc !! g = Some b).
Proof.
  induction gal_types as [|g0 rest IH]; intros acc d Hrun g b; simpl in Hrun.
  - inversion Hrun; subst. split; [right; split; [by inversion 1|done]|].
    intros [[Hin _]|[_ ?]]; [by inversion Hin|done].
  - destruct (occupation_bound_of bp g0) as [b0|] eqn:Hb0; [|done].
    simpl in Hrun. rewrite (IH _ _ Hrun g b).
    rewrite elem_of_cons. split.
    + intros [[Hin Hb]|[Hnin Hacc]]; [left; by split; [right|]|].
      destruct (decide (g = g0)) as [->|Hne].
      * rewrite lookup_insert_eq in Hacc. inversion Hacc; subst.
        left. by split; [left|].
      * rewrite lookup_insert_ne in Hacc by done. right. split; [tauto|done].
    + intros [[[->|Hin] Hb]|[Hnot Hacc]].
      * destruct (decide (g0 ∈ rest)); [by left|].
        right. split; [done|]. rewrite lookup_insert_eq. congruence.
      * by left.
      * right. split; [tauto|]. rewrite lookup_insert_ne; [done|].
        intros ->. tauto.
Qed.

(** X11.  When [_set_gal_types] returns, [occupation_bound] has exactly the galaxy
    types of [gal_types] as its keys, each with the occupation bound of its
    occupation model, and no other attribute has changed. *)
Theorem occupation_bound_of_every_gal_type self self' :
  _set_gal_types argsort class_attributes self = (self', Ok ()) →
  ∃ bp gal_types bounds,
    self_blueprint class_attributes "_input_model_blueprint" self = Ok bp ∧
    self_strings class_attributes "gal_types" self' = Ok gal_types ∧
    attrs self' !! "occupation_bound" = Some (Bounds bounds) ∧
    (∀ g b, bounds !! g = Some b ↔
            g ∈ gal_types ∧ occupation_bound_of bp g = Ok b) ∧
    (∀ g, g ∈ gal_types → is_Some (bounds !! g)) ∧
    (∀ name, name ≠ "gal_types" → name ≠ "occupation_bound" →
             attrs self' !! name = attrs self !! name) ∧
    objects self' = objects self.
Proof.
  unfold _set_gal_types. unfold sbind at 1, reading at 1.
  destruct (self_blueprint _ _ self) as [bp|] eqn:Hbp; [|by inversion 1].
  unfold sbind at 1, reading at 1.
  destruct (sorted_gal_types argsort bp) as [gal_types|] eqn:Hsorted;
    [|by inversion 1].
  unfold sbind at 1, changing at 1. unfold sbind at 1, changing at 1.
  unfold sbind at 1, reading at 1.
  assert (self_strings class_attributes "gal_types"
            (setattr "occupation_bound" (Bounds ∅)
               (setattr "gal_types" (Strings gal_types) self)) =
          Ok gal_types) as ->.
  { unfold self_strings, getattr_self, setattr. simpl.
    rewrite lookup_insert_ne by done. by rewrite lookup_insert_eq. }
  unfold sbind at 1, reading at 1.
  destruct (occupation_bound_loop bp gal_types ∅) as [bounds|] eqn:Hloop;
    [|by inversion 1].
  unfold changing. intros [= <-].
  pose proof (occupation_bound_loop_spec _ _ _ _ Hloop) as Hspec.
  assert (∀ g b, bounds !! g = Some b ↔
                 g ∈ gal_types ∧ occupation_bound_of bp g = Ok b) as Hbounds.
  { intros g b. rewrite Hspec. split; [|by left].
    intros [?|[_ Hempty]]; [done|]. by rewrite lookup_empty in Hempty. }
  exists bp, gal_types, bounds. split; [done|]. split.
  { unfold self_strings, getattr_self, setattr. simpl.
    rewrite !lookup_insert_ne by done. by rewrite lookup_insert_eq. }
  split; [by unfold setattr; simpl; rewrite lookup_insert_eq|].
  split; [done|]. split; [|split; [|done]].
  - intros g Hg.
    assert (∀ l : list string, ∀ acc d, occupation_bound_loop bp l acc = Ok d →
              ∀ g, g ∈ l → ∃ b, occupation_bound_of bp g = Ok b) as Hall.
    { clear. induction l as [|g0 l IH]; intros acc d Hrun g Hg; simpl in Hrun.
      { by inversion Hg. }
      destruct (occupation_bound_of bp g0) as [b0|] eqn:Hb0; [|done].
      apply elem_of_cons in Hg as [->|Hg]; [by eexists|by eapply IH]. }
    destruct (Hall _ _ _ Hloop g Hg) as [b Hb].
    exists b. by apply Hbounds.
  - intros name Hn1 Hn2. unfold setattr. simpl.
    by rewrite !lookup_insert_ne.
Qed.

(** X12.  The first galaxy type, in the order of the blueprint, whose occupation
    bound cannot be read decides the exception of [_set_gal_types]: the
    [KeyError] of ['occupation'] for a galaxy type without an occupation
    model, the [AttributeError] of [occupation_bound] for an occupation model
    without a bound; the instance is left as it was, without [gal_types]. *)
Theorem gal_type_without_occupation_bound_raises
    self (bp : blueprint V) before g after e :
  self_blueprint class_attributes "_input_model_blueprint" self = Ok bp →
  filter (λ key, key ≠ "mock_factory") (keys bp) = before ++ (g :: after) →
  Forall (λ g', ∃ b, occupation_bound_of bp g' = Ok b) before →
  occupation_bound_of bp g = Raise e →
  _set_gal_types argsort class_attributes self = (self, Raise e) ∧
  (∀ d, gal_type_dict bp g = Ok d → assoc d "occupation" = None →
        e = KeyError "occupation") ∧
  (∀ m, feature bp g "occupation" = Ok m → Component.occupation_bound m = None →
        e = AttributeError "occupation_bound").
Proof.
  intros Hbp Hkeys Hbefore Hg. split; [|split].
  - unfold _set_gal_types. unfold sbind at 1, reading at 1. rewrite Hbp.
    unfold sbind at 1, reading at 1. unfold sorted_gal_types.
    rewrite Hkeys. by rewrite (traverse_app_raise _ _ _ _ e Hbefore Hg).
  - intros d Hd Hnone. unfold occupation_bound_of, feature in Hg.
    rewrite Hd in Hg. simpl in Hg. rewrite Hnone in Hg. simpl in Hg. congruence.
  - intros m Hm Hnone. unfold occupation_bound_of in Hg.
    rewrite Hm in Hg. simpl in Hg. rewrite Hnone in Hg. simpl in Hg. congruence.
Qed.

(** X13.  [interpret_input_model_blueprint] returns when every galaxy type of
    [gal_types] has a profile model; it then keeps every entry of the input
    blueprint, a mock factory of the caller included, and adds
    [HodMockFactory] only where the input has none.  The first galaxy type
    without a profile model makes it raise the [KeyError] of ['profile']. *)
Theorem typed_blueprint_needs_a_profile_model
    self (bp : blueprint V) (gal_types : list string) :
  self_blueprint class_attributes "_input_model_blueprint" self = Ok bp →
  self_strings class_attributes "gal_types" self = Ok gal_types →
  (Forall (λ g, ∃ m, feature bp g "profile" = Ok m) gal_types →
   ∃ bp',
     interpret_input_model_blueprint class_attributes self = Ok bp' ∧
     (∀ key v, assoc bp key = Some v → assoc bp' key = Some v) ∧
     (assoc bp "mock_factory" = None →
      assoc bp' "mock_factory" = Some (Callable HodMockFactory)) ∧
     (∀ key, key ≠ "mock_factory" → assoc bp' key = assoc bp key)) ∧
  (∀ before g after d,
     gal_types = before ++ g :: after →
     Forall (λ g', ∃ m, feature bp g' "profile" = Ok m) before →
     gal_type_dict bp g = Ok d → assoc d "profile" = None →
     interpret_input_model_blueprint class_attributes self =
       Raise (KeyError "profile")).
Proof.
  intros Hbp Hgt. unfold interpret_input_model_blueprint.
  rewrite Hbp, Hgt. simpl. split.
  - intros Hall. destruct (traverse_ok _ _ Hall) as [ms ->].
    destruct (decide ("mock_factory" ∈ keys bp)) as [Hin|Hnin].
    + exists bp. split; [done|]. split; [done|]. split; [|done].
      intros Hnone. destruct (assoc_is_Some _ _ Hin) as [v Hv]. congruence.
    + eexists. split; [done|]. split; [|split].
      * intros key v Hv. by rewrite assoc_app, Hv.
      * intros _. by rewrite assoc_app, assoc_None.
      * intros key Hne. rewrite assoc_app.
        destruct (assoc bp key); [done|]. cbn [assoc].
        by rewrite decide_False.
  - intros before g after d -> Hbefore Hd Hnone.
    rewrite (traverse_app_raise _ _ _ _ (KeyError "profile") Hbefore); [done|].
    unfold feature. rewrite Hd. simpl. by rewrite Hnone.
Qed.

End TypedGalTypes.

Section TypedParameters.

Context {V : Type}.
Variable class_attributes : gset string.
Import HodModelFactory.
Implicit Types self : instance V.

(** What [_set_init_param_dict] returns, through the merge of the
    contributions of the component models. *)
Lemma _set_init_param_dict_typed_merge self (bp : blueprint V) gal_types :
  self_strings class_attributes "gal_types" self = Ok gal_types →
  self_blueprint class_attributes "model_blueprint" self = Ok bp →
  (∀ e, typed_merge bp ∅ gal_types = Raise e →
        (_set_init_param_dict class_attributes self).2 = Raise e) ∧
  (∀ d, typed_merge bp ∅ gal_types = Ok d →
        ∃ self1 l,
          attrs self1 !! "param_dict" = Some (Ref l) ∧
          objects self1 !! l = Some (Dict d) ∧
          _set_init_param_dict class_attributes self =
            ((bind_new "_init_param_dict" (Dict d) self1).1, Ok ())).
Proof.
  intros Hgt Hbp.
  assert (_set_init_param_dict class_attributes self =
          sbind (param_dict_loop class_attributes gal_types)
            (λ _, sbind (reading (self_dict class_attributes "param_dict"))
                    (λ d, bind_new "_init_param_dict" (Dict d)))
            (bind_param_dict ∅ self).1) as ->.
  { unfold _set_init_param_dict. unfold sbind at 1.
    change (bind_param_dict ∅ self)
      with ((bind_param_dict ∅ self).1, @Ok unit ()).
    cbv beta iota. unfold sbind at 1, reading at 1.
    by rewrite self_strings_bind_param_dict, Hgt. }
  unfold sbind at 1. unfold sbind at 2.
  destruct (param_dict_loop_typed_merge class_attributes gal_types
              (bind_param_dict ∅ self).1 bp ∅)
    as (self1 & Hloop & Hfr & Hd).
  { by rewrite self_blueprint_bind_param_dict. }
  { apply self_dict_bind_param_dict. }
  rewrite Hloop. split.
  - by intros e ->.
  - intros d Hm. rewrite Hm. unfold sbind, reading.
    pose proof (Hd d Hm) as Hself. rewrite Hself.
    revert Hself. unfold self_dict, getattr_self.
    destruct (attrs self1 !! "param_dict") as [v|] eqn:Hv; [|by case_decide].
    simpl. destruct v as [| | | |l| |]; try done.
    destruct (objects self1 !! l) as [[d'| | |]|] eqn:Ho; try done.
    intros [= ->]. by exists self1, l.
Qed.

(** X14.  The typed factory reads [param_dict] of every component model without
    asking whether it has one: the first component model without a
    [param_dict], when the component models before it share no key, makes
    [_set_init_param_dict] raise the [AttributeError] of [param_dict]. *)
Theorem typed_component_without_param_dict_raises
    self (bp : blueprint V) gal_types before m after d :
  self_strings class_attributes "gal_types" self = Ok gal_types →
  self_blueprint class_attributes "model_blueprint" self = Ok bp →
  typed_models bp gal_types = Ok (before ++ m :: after) →
  merge_with typed_contribution ∅ before = Ok d →
  Component.param_dict m = None →
  (_set_init_param_dict class_attributes self).2 =
    Raise (AttributeError "param_dict").
Proof.
  intros Hgt Hbp Hmodels Hbefore Hnone.
  destruct (_set_init_param_dict_typed_merge self bp gal_types Hgt Hbp)
    as [Hraise _].
  apply Hraise.
  rewrite (typed_merge_models _ _ _ _ Hmodels), merge_with_app, Hbefore.
  simpl. unfold typed_contribution at 1. by rewrite Hnone.
Qed.

Lemma mutate_param_dict_keeps (op : mutation V) self l l0 d0 :
  attrs self !! "param_dict" = Some (Ref l) → l ≠ l0 →
  objects self !! l0 = Some (Dict d0) →
  let self' := mutate_param_dict op self in
  attrs self' = attrs self ∧ objects self' !! l0 = Some (Dict d0).
Proof.
  intros Hl Hne Hd0. unfold mutate_param_dict. rewrite Hl.
  destruct (objects self !! l) as [[d| | |]|]; try done.
  simpl. by rewrite lookup_insert_ne.
Qed.

Lemma mutations_keep_typed_snapshot (ops : list (mutation V)) : ∀ self l l0 d0,
  attrs self !! "param_dict" = Some (Ref l) →
  attrs self !! "_init_param_dict" = Some (Ref l0) → l ≠ l0 →
  objects self !! l0 = Some (Dict d0) →
  self_dict class_attributes "_init_param_dict"
    (run_actions class_attributes (Mutate <$> ops) self) = Ok d0.
Proof.
  induction ops as [|op ops IH]; intros self l l0 d0 Hl Hl0 Hne Hd0.
  - simpl. unfold self_dict, getattr_self. rewrite Hl0. simpl. by rewrite Hd0.
  - simpl.
    destruct (mutate_param_dict_keeps op self l l0 d0 Hl Hne Hd0) as [Ha Ho'].
    apply (IH _ l l0); [by rewrite Ha|by rewrite Ha|done|done].
Qed.

(** X15.  When [_set_init_param_dict] returns, [param_dict] and [_init_param_dict]
    refer to two dictionary objects with the same items, so that whatever is
    done to [model.param_dict] afterwards, the items of [_init_param_dict]
    stay. *)
Theorem typed_snapshot_is_a_copy self self' :
  _set_init_param_dict class_attributes self = (self', Ok ()) →
  ∃ l l0 d,
    attrs self' !! "param_dict" = Some (Ref l) ∧
    attrs self' !! "_init_param_dict" = Some (Ref l0) ∧
    l ≠ l0 ∧
    objects self' !! l = Some (Dict d) ∧
    objects self' !! l0 = Some (Dict d) ∧
    ∀ ops : list (mutation V),
      self_dict class_attributes "_init_param_dict"
        (run_actions class_attributes (Mutate <$> ops) self') = Ok d.
Proof.
  unfold _set_init_param_dict. intros Hrun.
  apply sbind_Ok in Hrun as (s1 & [] & _ & Hrun).
  apply sbind_Ok in Hrun as (s2 & gal_types & Hread & Hrun).
  unfold reading in Hread. inversion Hread; subst s2. clear Hread.
  apply sbind_Ok in Hrun as (s3 & [] & _ & Hrun).
  apply sbind_Ok in Hrun as (s4 & d & Hread & Hrun).
  unfold reading in Hread. inversion Hread as [[Hs Hd]]. subst s4.
  clear Hread. unfold bind_new in Hrun. simpl in Hrun.
  inversion Hrun; subst self'. clear Hrun.
  revert Hd. unfold self_dict, getattr_self.
  destruct (attrs s3 !! "param_dict") as [v|] eqn:Hv; [|by case_decide].
  simpl. destruct v as [| | | |l| |]; try done.
  destruct (objects s3 !! l) as [[d'| | |]|] eqn:Ho; try done.
  intros [= ->].
  assert (l ≠ fresh (dom (objects s3))) as Hne.
  { intros ->. apply (is_fresh (dom (objects s3))). apply elem_of_dom. eauto. }
  exists l, (fresh (dom (objects s3))), d.
  assert (attrs (setattr "_init_param_dict" (Ref (fresh (dom (objects s3))))
                   {| objects := <[fresh (dom (objects s3)) := Dict d]> (objects s3);
                      attrs := attrs s3 |}) !! "param_dict" = Some (Ref l)) as Hl.
  { simpl. by rewrite lookup_insert_ne. }
  assert (attrs (setattr "_init_param_dict" (Ref (fresh (dom (objects s3))))
                   {| objects := <[fresh (dom (objects s3)) := Dict d]> (objects s3);
                      attrs := attrs s3 |}) !! "_init_param_dict" =
          Some (Ref (fresh (dom (objects s3))))) as Hl0.
  { simpl. by rewrite lookup_insert_eq. }
  assert (objects (setattr "_init_param_dict" (Ref (fresh (dom (objects s3))))
                   {| objects := <[fresh (dom (objects s3)) := Dict d]> (objects s3);
                      attrs := attrs s3 |}) !! fresh (dom (objects s3)) =
          Some (Dict d)) as Hd0.
  { simpl. by rewrite lookup_insert_eq. }
  split; [done|]. split; [done|]. split; [done|].
  split; [simpl; by rewrite lookup_insert_ne|]. split; [done|].
  intros ops. by eapply mutations_keep_typed_snapshot.
Qed.

End TypedParameters.

Section TypedCompositeLists.

Context {V : Type}.
Variable class_attributes : gset string.
Import HodModelFactory.
Implicit Types self : instance V.

Lemma component_loop_lists (component_dict : list (string * component_model V))
    component_keys : ∀ acc acc',
  component_loop component_dict component_keys acc = Ok acc' →
  (∀ key, key ∈ haloprop_list acc' ↔
     key ∈ haloprop_list acc ∨
     ∃ feat m, feat ∈ component_keys ∧ assoc component_dict feat = Some m ∧
       (Component.prim_haloprop_key m = Some key ∨
        Component.sec_haloprop_key m = Some key)) ∧
  (∀ key, key ∈ prof_param_keys_list acc' ↔
     key ∈ prof_param_keys_list acc ∨
     ∃ feat m keys, feat ∈ component_keys ∧ assoc component_dict feat = Some m ∧
       Component.prof_param_keys m = Some keys ∧ key ∈ keys) ∧
  (∀ pub, pub ∈ pub_list acc' ↔
     pub ∈ pub_list acc ∨
     ∃ feat m pubs, feat ∈ component_keys ∧ assoc component_dict feat = Some m ∧
       Component.publications m = Some pubs ∧ pub ∈ pubs).
Proof.
  induction component_keys as [|f rest IH]; intros acc acc' Hrun; simpl in Hrun.
  - inversion Hrun; subst. repeat split; try tauto.
    + intros [?|(? & ? & Hin & _)]; [done|by inversion Hin].
    + intros [?|(? & ? & ? & Hin & _)]; [done|by inversion Hin].
    + intros [?|(? & ? & ? & Hin & _)]; [done|by inversion Hin].
  - unfold getitem_assoc in Hrun.
    destruct (assoc component_dict f) as [m|] eqn:Hm; [|done]. simpl in Hrun.
    destruct (add_func_dict m (func_dict_acc acc)) as [fd|]; [|done].
    simpl in Hrun. destruct (IH _ _ Hrun) as (Hkeys & Hprof & Hpubs).
    simpl in *. split; [|split]; intros x.
    + rewrite Hkeys, elem_of_add_haloprop_keys. split.
      * intros [[?|?]|(f' & m' & ? & ? & ?)]; [by left| |].
        -- right. exists f, m. split; [left|done].
        -- right. exists f', m'. split; [by right|done].
      * intros [?|(f' & m' & [->|?]%elem_of_cons & Hm' & ?)]; [by left; left| |].
        -- rewrite Hm in Hm'. inversion Hm'; subst. by left; right.
        -- right. by exists f', m'.
    + rewrite Hprof, elem_of_add_prof_param_keys. split.
      * intros [[?|(ks & ? & ?)]|(f' & m' & ks & ? & ? & ? & ?)]; [by left| |].
        -- right. exists f, m, ks. split; [left|done].
        -- right. exists f', m', ks. split; [by right|done].
      * intros [?|(f' & m' & ks & [->|?]%elem_of_cons & Hm' & ? & ?)];
          [by left; left| |].
        -- rewrite Hm in Hm'. inversion Hm'; subst. left; right. by exists ks.
        -- right. by exists f', m', ks.
    + rewrite Hpubs, elem_of_add_publications. split.
      * intros [[?|(ps & ? & ?)]|(f' & m' & ps & ? & ? & ? & ?)]; [by left| |].
        -- right. exists f, m, ps. split; [left|done].
        -- right. exists f', m', ps. split; [by right|done].
      * intros [?|(f' & m' & ps & [->|?]%elem_of_cons & Hm' & ? & ?)];
          [by left; left| |].
        -- rewrite Hm in Hm'. inversion Hm'; subst. left; right. by exists ps.
        -- right. by exists f', m', ps.
Qed.

Lemma assoc_Some_keys {A} (l : list (string * A)) k a :
  assoc l k = Some a → k ∈ keys l.
Proof.
  unfold keys. induction l as [|[k' a'] l IH]; simpl; [done|].
  case_decide as Hk; [subst; by left|]. intros H. right. by apply IH.
Qed.

Lemma composite_loop_typed_lists (bp : blueprint V) gal_types : ∀ acc acc',
  composite_loop bp gal_types acc = Ok acc' →
  (∀ key, key ∈ haloprop_list acc' ↔
     key ∈ haloprop_list acc ∨
     ∃ g feat m, g ∈ gal_types ∧ feature bp g feat = Ok m ∧
       (Component.prim_haloprop_key m = Some key ∨
        Component.sec_haloprop_key m = Some key)) ∧
  (∀ key, key ∈ prof_param_keys_list acc' ↔
     key ∈ prof_param_keys_list acc ∨
     ∃ g feat m keys, g ∈ gal_types ∧ feature bp g feat = Ok m ∧
       Component.prof_param_keys m = Some keys ∧ key ∈ keys) ∧
  (∀ pub, pub ∈ pub_list acc' ↔
     pub ∈ pub_list acc ∨
     ∃ g feat m pubs, g ∈ gal_types ∧ feature bp g feat = Ok m ∧
       Component.publications m = Some pubs ∧ pub ∈ pubs).
Proof.
  assert (∀ g d feat m, gal_type_dict bp g = Ok d →
            (feature bp g feat = Ok m ↔ assoc d feat = Some m)) as Hfeature.
  { intros g d feat m Hd. unfold feature. rewrite Hd. simpl.
    destruct (assoc d feat); split; congruence. }
  induction gal_types as [|g rest IH]; intros acc acc' Hrun; simpl in Hrun.
  - inversion Hrun; subst. repeat split; try tauto.
    + intros [?|(? & ? & ? & Hin & _)]; [done|by inversion Hin].
    + intros [?|(? & ? & ? & ? & Hin & _)]; [done|by inversion Hin].
    + intros [?|(? & ? & ? & ? & Hin & _)]; [done|by inversion Hin].
  - destruct (gal_type_dict bp g) as [d|] eqn:Hd; [|done]. simpl in Hrun.
    destruct (component_loop d (keys d) acc) as [acc1|] eqn:Hc; [|done].
    simpl in Hrun.
    destruct (component_loop_lists _ _ _ _ Hc) as (Hk1 & Hp1 & Hq1).
    destruct (IH _ _ Hrun) as (Hk2 & Hp2 & Hq2).
    split; [|split]; intros x.
    + rewrite Hk2, Hk1. split.
      * intros [[?|(f & m & ? & Hm & ?)]|(g' & f & m & ? & ? & ?)]; [by left| |].
        -- right. exists g, f, m. split; [left|]. by rewrite (Hfeature g d).
        -- right. exists g', f, m. split; [by right|done].
      * intros [?|(g' & f & m & [->|?]%elem_of_cons & Hm & ?)]; [by left; left| |].
        -- left; right. apply (Hfeature _ d) in Hm; [|done].
           exists f, m. split; [by eapply assoc_Some_keys|done].
        -- right. by exists g', f, m.
    + rewrite Hp2, Hp1. split.
      * intros [[?|(f & m & ks & ? & Hm & ? & ?)]|(g' & f & m & ks & ? & ? & ? & ?)];
          [by left| |].
        -- right. exists g, f, m, ks. split; [left|]. by rewrite (Hfeature g d).
        -- right. exists g', f, m, ks. split; [by right|done].
      * intros [?|(g' & f & m & ks & [->|?]%elem_of_cons & Hm & ? & ?)];
          [by left; left| |].
        -- left; right. apply (Hfeature _ d) in Hm; [|done].
           exists f, m, ks. split; [by eapply assoc_Some_keys|done].
        -- right. by exists g', f, m, ks.
    + rewrite Hq2, Hq1. split.
      * intros [[?|(f & m & ps & ? & Hm & ? & ?)]|(g' & f & m & ps & ? & ? & ? & ?)];
          [by left| |].
        -- right. exists g, f, m, ps. split; [left|]. by rewrite (Hfeature g d).
        -- right. exists g', f, m, ps. split; [by right|done].
      * intros [?|(g' & f & m & ps & [->|?]%elem_of_cons & Hm & ? & ?)];
          [by left; left| |].
        -- left; right. apply (Hfeature _ d) in Hm; [|done].
           exists f, m, ps. split; [by eapply assoc_Some_keys|done].
        -- right. by exists g', f, m, ps.
Qed.

(** X16.  When [_build_composite_lists] of the typed factory returns,
    [prof_param_keys], [_haloprop_list] and [publications] have no element
    twice; [prof_param_keys] holds exactly the profile parameter keys of the
    component models of the galaxy types, of whatever feature, and
    [_haloprop_list] exactly their halo property keys. *)
Theorem typed_composite_lists_are_unions_without_repeats
    self self' (bp : blueprint V) gal_types :
  self_strings class_attributes "gal_types" self = Ok gal_types →
  self_blueprint class_attributes "model_blueprint" self = Ok bp →
  _build_composite_lists class_attributes self = (self', Ok ()) →
  ∃ prof_param_keys haloprops pubs,
    attrs self' !! "prof_param_keys" = Some (Strings prof_param_keys) ∧
    attrs self' !! "_haloprop_list" = Some (Strings haloprops) ∧
    attrs self' !! "publications" = Some (Strings pubs) ∧
    NoDup prof_param_keys ∧ NoDup haloprops ∧ NoDup pubs ∧
    (∀ key, key ∈ prof_param_keys ↔
       ∃ g feat m keys, g ∈ gal_types ∧ feature bp g feat = Ok m ∧
         Component.prof_param_keys m = Some keys ∧ key ∈ keys) ∧
    (∀ key, key ∈ haloprops ↔
       ∃ g feat m, g ∈ gal_types ∧ feature bp g feat = Ok m ∧
         (Component.prim_haloprop_key m = Some key ∨
          Component.sec_haloprop_key m = Some key)).
Proof.
  intros Hgt Hbp. unfold _build_composite_lists.
  unfold sbind at 1, reading at 1. rewrite Hgt.
  unfold sbind at 1, reading at 1. rewrite Hbp.
  unfold sbind at 1, reading at 1.
  destruct (composite_loop bp gal_types no_lists) as [acc|] eqn:Hloop;
    [|by inversion 1].
  unfold sbind, changing. intros [= <-]. simpl.
  destruct (composite_loop_typed_lists _ _ _ _ Hloop) as (Hk & Hp & _).
  eexists _, _, _.
  split; [rewrite !lookup_insert_ne by done; by rewrite lookup_insert_eq|].
  split; [rewrite !lookup_insert_ne by done; by rewrite lookup_insert_eq|].
  split; [rewrite !lookup_insert_ne by done; by rewrite lookup_insert_eq|].
  split; [apply NoDup_elements|]. split; [apply NoDup_elements|].
  split; [apply NoDup_elements|].
  unfold set_of. split; intros x.
  - rewrite elem_of_elements, elem_of_list_to_set, Hp. simpl.
    split; [intros [Hnil|?]; [by inversion Hnil|done]|by right].
  - rewrite elem_of_elements, elem_of_list_to_set, Hk. simpl.
    split; [intros [Hnil|?]; [by inversion Hnil|done]|by right].
Qed.

End TypedCompositeLists.

(** ** The typed factory: behaviours and positions *)

Section TypedBehaviors.

Context {V : Type}.
Variable class_attributes : gset string.
Import HodModelFactory.
Implicit Types self : instance V.

Lemma sbind_relates {S A B} (R : S → S → Prop) `{!Transitive R}
    (m : stateful S A) (k : A → stateful S B) s :
  R s (m s).1 → (∀ a s', R s' (k a s').1) → R s (sbind m k s).1.
Proof.
  intros Hm Hk. unfold sbind.
  destruct (m s) as [s' [a|e]]; [|done].
  etrans; [exact Hm|apply Hk].
Qed.

#[local] Instance makes_functions_refl : Reflexive (@makes_functions V).
Proof. intros self. split; [done|]. split; [congruence|by left]. Qed.

#[local] Instance makes_functions_trans : Transitive (@makes_functions V).
Proof.
  intros s1 s2 s3 (Ho1 & Hn1 & Ha1) (Ho2 & Hn2 & Ha2).
  split; [by etrans|]. split.
  - intros l o Hl3 Hl1.
    destruct (objects s2 !! l) as [o2|] eqn:Hl2.
    + pose proof (lookup_weaken _ _ _ _ Hl2 Ho2) as Hl3'.
      rewrite Hl3 in Hl3'. inversion Hl3'; subst. by eapply Hn1.
    + by eapply Hn2.
  - intros name v Hv.
    destruct (Ha1 name v Hv) as [Hv2|(l & Hl & Hnew & [o Ho])].
    + destruct (Ha2 name v Hv2) as [?|(l & Hl & Hnew & Hsome)]; [by left|].
      right. exists l. split; [done|]. split; [|done].
      destruct (objects s1 !! l) as [o|] eqn:Hl1; [|done].
      pose proof (lookup_weaken _ _ _ _ Hl1 Ho1). congruence.
    + destruct (Ha2 name _ Hl) as [?|(l' & Hl' & Hnew' & Hsome)].
      * right. exists l. split; [done|]. split; [done|].
        exists o. by eapply lookup_weaken.
      * right. exists l'. split; [done|]. split; [|done].
        destruct (objects s1 !! l') as [o'|] eqn:Hl1; [|done].
        pose proof (lookup_weaken _ _ _ _ Hl1 Ho1). congruence.
Qed.

Lemma bind_new_makes_functions name (o : object V) self :
  (∀ d, o ≠ Dict d) → makes_functions self (bind_new name o self).1.
Proof.
  intros Ho. unfold bind_new, new_object, setattr. simpl.
  assert (objects self !! fresh (dom (objects self)) = None) as Hfresh.
  { apply not_elem_of_dom, is_fresh. }
  split; [by apply insert_subseteq|]. split.
  - intros l o' Hl Hnone. simpl in Hl.
    destruct (decide (fresh (dom (objects self)) = l)) as [<-|Hne].
    + rewrite lookup_insert_eq in Hl. by inversion Hl; subst.
    + rewrite lookup_insert_ne in Hl by done. congruence.
  - intros name' v Hv. simpl. destruct (decide (name = name')) as [<-|Hne].
    + right. eexists. rewrite lookup_insert_eq. split; [done|].
      split; [done|]. rewrite lookup_insert_eq. by eexists.
    + left. by rewrite lookup_insert_ne.
Qed.

Lemma only_adds_makes_functions self self' :
  only_adds self self' → makes_functions self self'.
Proof.
  intros [Ho Ha]. split; [by rewrite Ho|]. split.
  - intros l o Hl Hnone. rewrite Ho in Hl. congruence.
  - intros name v Hv. left. by eapply lookup_weaken.
Qed.

Lemma prof_param_loop_makes_functions gal_type (m : component_model V) keys :
  ∀ self, makes_functions self (prof_param_loop class_attributes gal_type m keys self).1.
Proof.
  induction keys as [|k rest IH]; intros self; simpl; [done|].
  apply sbind_relates; [apply _| |].
  - unfold bind_halo_accessor. destruct (hasattr_self _ _ self); [done|].
    apply sbind_relates; [apply _|done|].
    intros f s. by apply bind_new_makes_functions.
  - intros _ s. apply sbind_relates; [apply _| |].
    + unfold bind_gal_type_accessor. apply sbind_relates; [apply _|done|].
      intros f s'. by apply bind_new_makes_functions.
    + intros _ s'. apply IH.
Qed.

Lemma bind_gal_type_makes_functions gal_type self :
  makes_functions self (bind_gal_type class_attributes gal_type self).1.
Proof.
  unfold bind_gal_type.
  apply sbind_relates; [apply _|done|]. intros bp s1.
  apply sbind_relates; [apply _|done|]. intros occupation_model s2.
  apply sbind_relates; [apply _|done|]. intros mc_occupation s3.
  apply sbind_relates; [apply _|done|]. intros input_param_dict s4.
  apply sbind_relates; [apply _|by apply bind_new_makes_functions|].
  intros _ s5.
  apply sbind_relates; [apply _| |].
  { destruct (Component.methods occupation_model !! "mean_occupation"); [|done].
    apply sbind_relates; [apply _|done|].
    intros d s. by apply bind_new_makes_functions. }
  intros _ s6.
  apply sbind_relates; [apply _|done|]. intros bp' s7.
  apply sbind_relates; [apply _|done|]. intros gal_prof_model s8.
  apply sbind_relates; [apply _|done|]. intros keys s9.
  apply sbind_relates; [apply _|apply prof_param_loop_makes_functions|].
  intros _ s10.
  apply sbind_relates; [apply _|done|]. intros mc_pos s11.
  by apply bind_new_makes_functions.
Qed.

Lemma gal_types_loop_makes_functions gal_types : ∀ self,
  makes_functions self (gal_types_loop class_attributes gal_types self).1.
Proof.
  induction gal_types as [|g rest IH]; intros self; simpl; [done|].
  apply sbind_relates; [apply _|apply bind_gal_type_makes_functions|].
  intros _ s. apply IH.
Qed.

(** X17.  Whether it returns or raises, [_set_primary_behaviors] leaves every
    object as it is, the dictionaries of [param_dict] and [_init_param_dict]
    among them; every object it makes is a function object; and an
    attribute that was bound is afterwards bound to what it was, or to one of
    the function objects just made. *)
Theorem binding_behaviors_only_makes_function_objects self :
  let self' := (_set_primary_behaviors class_attributes self).1 in
  (∀ l o, objects self !! l = Some o → objects self' !! l = Some o) ∧
  (∀ l o, objects self' !! l = Some o → objects self !! l = None →
          ∀ d, o ≠ Dict d) ∧
  (∀ name v, attrs self !! name = Some v →
     attrs self' !! name = Some v ∨
     ∃ l, attrs self' !! name = Some (Ref l) ∧ objects self !! l = None ∧
          is_Some (objects self' !! l)).
Proof.
  assert (makes_functions self (_set_primary_behaviors class_attributes self).1)
    as (Ho & Hn & Ha).
  { unfold _set_primary_behaviors.
    apply sbind_relates; [apply _| |].
    - unfold bind_all_gal_types. apply sbind_relates; [apply _|done|].
      intros gal_types s. apply gal_types_loop_makes_functions.
    - intros _ s. unfold inherit_all. apply sbind_relates; [apply _|done|].
      intros keys s'. apply only_adds_makes_functions, inherit_loop_only_adds. }
  split; [|done]. intros l o Hl. by eapply lookup_weaken.
Qed.

End TypedBehaviors.

Section PositionShapes.

Context {V : Type}.
Variable host_haloprop_prefix : string.
Variable class_attributes : gset string.
Import HodModelFactory.

Lemma inplace_length op (x a x' : list float) :
  inplace op x a = Ok x' → length x' = length x.
Proof.
  unfold inplace. case_decide as Hlen.
  - intros [= <-]. rewrite length_zip_with. lia.
  - destruct a as [|a0 [|]]; try done. intros [= <-]. by rewrite length_fmap.
Qed.

(** X18.  When [mc_pos] returns, the galaxy table has the column of the halo
    boundary and the three columns of the halo position, and the three arrays
    returned have as many elements as those of the position sampler of the
    profile model, also where a column of length one is broadcast. *)
Theorem mc_pos_keeps_the_number_of_galaxies
    (galaxy_table : table) (gal_type : string) (self : instance V)
    (bp : blueprint V) (m : component_model V)
    (sampler : table → list float * list float * list float)
    (x y z x' y' z' : list float) :
  self_blueprint class_attributes "model_blueprint" self = Ok bp →
  feature bp gal_type "profile" = Ok m →
  Component.mc_pos m = Some sampler →
  sampler galaxy_table = (x, y, z) →
  mc_pos host_haloprop_prefix class_attributes galaxy_table gal_type self =
    Ok (x', y', z') →
  (length x' = length x ∧ length y' = length y ∧ length z' = length z) ∧
  (∃ halo_boundary,
     Component.halo_boundary m = Some halo_boundary ∧
     is_Some (galaxy_table !! (host_haloprop_prefix +:+ halo_boundary))) ∧
  is_Some (galaxy_table !! (host_haloprop_prefix +:+ "x")) ∧
  is_Some (galaxy_table !! (host_haloprop_prefix +:+ "y")) ∧
  is_Some (galaxy_table !! (host_haloprop_prefix +:+ "z")).
Proof.
  intros Hbp Hm Hs Hxyz. unfold mc_pos. rewrite Hbp. simpl. rewrite Hm. simpl.
  rewrite Hs. simpl. rewrite Hxyz.
  destruct (Component.halo_boundary m) as [hb|]; [|done]. simpl.
  unfold getitem.
  destruct (galaxy_table !! (host_haloprop_prefix +:+ hb)) as [r|] eqn:Hr;
    [|done].
  simpl.
  destruct (inplace PrimFloat.mul x _) as [x1|] eqn:Hx1; [|done]. simpl.
  destruct (inplace PrimFloat.mul y _) as [y1|] eqn:Hy1; [|done]. simpl.
  destruct (inplace PrimFloat.mul z _) as [z1|] eqn:Hz1; [|done]. simpl.
  destruct (galaxy_table !! (host_haloprop_prefix +:+ "x")) as [cx|]; [|done].
  simpl. destruct (inplace PrimFloat.add x1 cx) as [x2|] eqn:Hx2; [|done].
  simpl.
  destruct (galaxy_table !! (host_haloprop_prefix +:+ "y")) as [cy|]; [|done].
  simpl. destruct (inplace PrimFloat.add y1 cy) as [y2|] eqn:Hy2; [|done].
  simpl.
  destruct (galaxy_table !! (host_haloprop_prefix +:+ "z")) as [cz|]; [|done].
  simpl. destruct (inplace PrimFloat.add z1 cz) as [z2|] eqn:Hz2; [|done].
  simpl. intros [= <- <- <-].
  apply inplace_length in Hx1, Hy1, Hz1, Hx2, Hy2, Hz2.
  split; [repeat split; congruence|].
  split; [exists hb; by rewrite Hr|]. by repeat split.
Qed.

End PositionShapes.

(** ** The properties above, on the blueprints of the examples *)


Lemma strip_gives_back_private_dict_of_own_slot_witness :
  let self := Examples.flat_ready Examples.flat_blueprint Examples.no_keywords in
  ∃ self'' l,
    SubhaloModelFactory._get_stripped_param_dict "stellar_mass"
      (SubhaloModelFactory._set_init_param_dict self).1 = (self'', Ok l) ∧
    SubhaloModelFactory.heap self'' !! l = Some {[ "slope" := 1%Z ]}.
Proof.
  intros self.
  apply (strip_gives_back_private_dict_of_own_slot self
           (SubhaloModelFactory._set_init_param_dict self).1 "stellar_mass"
           (Examples.galprop_model "stellar_mass" [("slope", 1%Z)] 40%nat)).
  - vm_compute. reflexivity.
  - vm_compute. left.
  - vm_compute. reflexivity.
  - vm_compute. reflexivity.
  - vm_compute. reflexivity.
Defined.

Lemma first_restore_resets_param_dict_witness :
  let model :=
    (SubhaloModelFactory.__init__ ∅ Examples.flat_blueprint
       Examples.no_keywords).1 in
  ∃ d,
    SubhaloModelFactory.read_param_dict model = Ok d ∧
    ∀ ops : list (mutation Z),
      SubhaloModelFactory.read_param_dict
        (SubhaloModelFactory.run_actions
           ((SubhaloModelFactory.Mutate <$> ops) ++ [SubhaloModelFactory.Restore])
           model) = Ok d.
Proof.
  intros model.
  apply (first_restore_resets_param_dict ∅ Examples.flat_blueprint
           Examples.no_keywords model).
  vm_compute. reflexivity.
Defined.

Lemma flat_composite_lists_are_unions_without_repeats_witness :
  let bp : SubhaloModelFactory.blueprint Z :=
    [("a", SubhaloModelFactory.Model (Examples.occupation_model 1 []));
     ("b", SubhaloModelFactory.Model (Examples.occupation_model 2 []))] in
  let self := SubhaloModelFactory.ModelFactory_init ∅ bp Examples.no_keywords in
  let self :=
    SubhaloModelFactory.set_model_blueprint
      (SubhaloModelFactory._interpret_input_model_blueprint self) self in
  let self' :=
    (SubhaloModelFactory._build_composite_lists Examples.no_keywords self).1 in
  NoDup (SubhaloModelFactory._haloprop_list self') ∧
  SubhaloModelFactory._haloprop_list self' = ["mvir"].
Proof.
  intros bp self0 self self'.
  destruct (flat_composite_lists_are_unions_without_repeats
              Examples.no_keywords self self')
    as (Hnodup & _ & _ & _).
  - vm_compute. reflexivity.
  - split; [exact Hnodup|]. vm_compute. reflexivity.
Defined.

Lemma two_func_dicts_make_the_constructor_raise_witness :
  SubhaloModelFactory.construct ∅ (Examples.funcs_blueprint "f" "g")
    Examples.no_keywords = Raise (AttributeError "items").
Proof.
  apply (two_func_dicts_make_the_constructor_raise ∅
           (Examples.funcs_blueprint "f" "g") Examples.no_keywords
           ["stellar_mass"; "sfr"] 0 1 "stellar_mass" "sfr"
           (Examples.with_funcs [("f", 50%nat)]
              (Examples.galprop_model_without_params "stellar_mass" 40%nat))
           (Examples.with_funcs [("g", 51%nat)]
              (Examples.galprop_model_without_params "sfr" 41%nat))).
  - vm_compute. reflexivity.
  - lia.
  - reflexivity.
  - reflexivity.
  - vm_compute. reflexivity.
  - vm_compute. reflexivity.
  - eexists. reflexivity.
  - eexists. reflexivity.
Defined.

Lemma occupation_bound_of_every_gal_type_witness :
  let self :=
    HodModelFactory.ModelFactory_init (V:=Z) ∅ Examples.three_types_blueprint
      Examples.no_typed_keywords in
  let self' :=
    (HodModelFactory._set_gal_types stable_argsort Examples.class_attributes
       self).1 in
  ∃ bounds,
    HodModelFactory.attrs self' !! "occupation_bound" =
      Some (HodModelFactory.Bounds bounds) ∧
    bounds !! "satellites" = Some 20%Z ∧
    bounds !! "mock_factory" = None.
Proof.
  intros self self'.
  destruct (occupation_bound_of_every_gal_type stable_argsort
              Examples.class_attributes self self')
    as (bp & gal_types & bounds & Hbp & Hgt & Hattr & Hbounds & _).
  - vm_compute. reflexivity.
  - exists bounds. split; [exact Hattr|].
    vm_compute in Hbp. injection Hbp as <-.
    vm_compute in Hgt. injection Hgt as <-.
    split.
    + apply Hbounds. split; [|vm_compute; reflexivity].
      apply elem_of_cons. right. apply elem_of_cons. right.
      apply list_elem_of_singleton. reflexivity.
    + destruct (bounds !! "mock_factory") as [b|] eqn:Hb; [|reflexivity].
      apply Hbounds in Hb as [_ Hb]. vm_compute in Hb. discriminate Hb.
Defined.

Lemma gal_type_without_occupation_bound_raises_witness :
  let bp : HodModelFactory.blueprint Z :=
    [("centrals", Examples.gal_type 1 [] [] []);
     ("ghosts",
      HodModelFactory.Features
        [("profile", Examples.profile_model [] [] Examples.no_sample)])] in
  let self := HodModelFactory.ModelFactory_init ∅ bp Examples.no_typed_keywords in
  HodModelFactory._set_gal_types stable_argsort Examples.class_attributes self =
    (self, Raise (KeyError "occupation")).
Proof.
  intros bp self.
  apply (gal_type_without_occupation_bound_raises stable_argsort
           Examples.class_attributes self bp ["centrals"] "ghosts" []
           (KeyError "occupation")).
  - vm_compute. reflexivity.
  - vm_compute. reflexivity.
  - constructor; [|constructor].
    eexists. vm_compute. reflexivity.
  - vm_compute. reflexivity.
Defined.

Lemma typed_blueprint_needs_a_profile_model_witness :
  let self :=
    (HodModelFactory._set_gal_types stable_argsort Examples.class_attributes
       (HodModelFactory.ModelFactory_init (V:=Z) ∅ Examples.fallback_blueprint
          Examples.no_typed_keywords)).1 in
  ∃ bp',
    HodModelFactory.interpret_input_model_blueprint Examples.class_attributes
      self = Ok bp' ∧
    assoc bp' "mock_factory" = Some (HodModelFactory.Callable HodMockFactory) ∧
    assoc bp' "centrals" = assoc Examples.fallback_blueprint "centrals".
Proof.
  intros self.
  destruct (typed_blueprint_needs_a_profile_model Examples.class_attributes
              self Examples.fallback_blueprint ["centrals"; "satellites"])
    as [Hok _].
  - vm_compute. reflexivity.
  - vm_compute. reflexivity.
  - destruct Hok as (bp' & Hrun & _ & Hmock & Hkeys).
    + constructor; [eexists; vm_compute; reflexivity|].
      constructor; [eexists; vm_compute; reflexivity|constructor].
    + exists bp'. split; [exact Hrun|]. split.
      * apply Hmock. vm_compute. reflexivity.
      * apply Hkeys. discriminate.
Defined.

Lemma typed_component_without_param_dict_raises_witness :
  let bp : HodModelFactory.blueprint Z :=
    [("centrals",
      HodModelFactory.Features
        [("occupation", Examples.occupation_model 1 [("logMmin", 12%Z)]);
         ("profile", Examples.galprop_model_without_params "profile" 41%nat)])] in
  (HodModelFactory._set_init_param_dict Examples.class_attributes
     (Examples.typed_ready bp)).2 = Raise (AttributeError "param_dict").
Proof.
  intros bp.
  apply (typed_component_without_param_dict_raises Examples.class_attributes
           (Examples.typed_ready bp)
           (bp ++ [("mock_factory", HodModelFactory.Callable HodMockFactory)])
           ["centrals"]
           [Examples.occupation_model 1 [("logMmin", 12%Z)]]
           (Examples.galprop_model_without_params "profile" 41%nat) []
           {[ "logMmin" := 12%Z ]}).
  - vm_compute. reflexivity.
  - vm_compute. reflexivity.
  - vm_compute. reflexivity.
  - vm_compute. reflexivity.
  - reflexivity.
Defined.

Lemma typed_snapshot_is_a_copy_witness :
  let self := Examples.typed_ready Examples.centrals_blueprint in
  let self' :=
    (HodModelFactory._set_init_param_dict Examples.class_attributes self).1 in
  ∃ l l0 d,
    HodModelFactory.attrs self' !! "param_dict" = Some (HodModelFactory.Ref l) ∧
    HodModelFactory.attrs self' !! "_init_param_dict" =
      Some (HodModelFactory.Ref l0) ∧
    l ≠ l0 ∧
    HodModelFactory.objects self' !! l = Some (HodModelFactory.Dict d) ∧
    HodModelFactory.objects self' !! l0 = Some (HodModelFactory.Dict d) ∧
    ∀ ops : list (mutation Z),
      HodModelFactory.self_dict Examples.class_attributes "_init_param_dict"
        (HodModelFactory.run_actions Examples.class_attributes
           (HodModelFactory.Mutate <$> ops) self') = Ok d.
Proof.
  intros self self'.
  apply (typed_snapshot_is_a_copy Examples.class_attributes self self').
  vm_compute. reflexivity.
Defined.

Lemma typed_composite_lists_are_unions_without_repeats_witness :
  let self := Examples.typed_ready Examples.fallback_blueprint in
  let self' :=
    (HodModelFactory._build_composite_lists Examples.class_attributes self).1 in
  HodModelFactory.attrs self' !! "prof_param_keys" =
    Some (HodModelFactory.Strings ["conc"]) ∧
  HodModelFactory.attrs self' !! "_haloprop_list" =
    Some (HodModelFactory.Strings ["mvir"]).
Proof.
  intros self self'.
  destruct (typed_composite_lists_are_unions_without_repeats
              Examples.class_attributes self self'
              (Examples.fallback_blueprint ++
                 [("mock_factory", HodModelFactory.Callable HodMockFactory)])
              ["centrals"; "satellites"])
    as (keys & haloprops & pubs & _).
  - vm_compute. reflexivity.
  - vm_compute. reflexivity.
  - vm_compute. reflexivity.
  - split; vm_compute; reflexivity.
Defined.

Lemma mc_pos_keeps_the_number_of_galaxies_witness :
  let sample := ([0.1%float; 0.2%float], [0%float; 0%float], [0%float; 0%float]) in
  let bp : HodModelFactory.blueprint Z :=
    [("centrals",
      HodModelFactory.Features
        [("occupation", Examples.occupation_model 1 []);
         ("profile", Examples.profile_model [] [] sample)])] in
  ∃ x' y' z',
    HodModelFactory.mc_pos "halo_" Examples.class_attributes
      Examples.one_row_table "centrals" (Examples.typed_ready bp) =
      Ok (x', y', z') ∧
    length x' = 2%nat ∧ length y' = 2%nat ∧ length z' = 2%nat.
Proof.
  intros sample bp.
  eexists _, _, _. split; [vm_compute; reflexivity|].
  destruct (mc_pos_keeps_the_number_of_galaxies (V:=Z) "halo_"
              Examples.class_attributes Examples.one_row_table "centrals"
              (Examples.typed_ready bp)
              (bp ++ [("mock_factory", HodModelFactory.Callable HodMockFactory)])
              (Examples.profile_model [] [] sample) (λ _, sample)
              [0.1%float; 0.2%float] [0%float; 0%float] [0%float; 0%float]
              [(0.1 * (200 / 1000) + 10)%float; (0.2 * (200 / 1000) + 10)%float]
              [(0 * (200 / 1000) + 20)%float; (0 * (200 / 1000) + 20)%float]
              [(0 * (200 / 1000) + 30)%float; (0 * (200 / 1000) + 30)%float])
    as [Hlen _]; try (vm_compute; reflexivity).
  exact Hlen.
Defined.
